(** * papertrade: the trading engine, the screener score and the drawdown

    A shallow embedding of [app/engine.py], [app/screener.py] and
    [app/compare.py], and the properties of the ledger arithmetic.

    Conventions of the embedding.
    - Python [float] currency amounts, prices and quantities are exact
      rationals ([Q]); rounding, infinities and NaN of the machine
      format are outside the model.  Where the code divides two Python
      floats, a zero divisor raises [ZeroDivisionError] and the model
      raises too.  Where the code divides inside pandas (screener,
      drawdown), a zero divisor yields an infinity or NaN and the
      result type [npfloat] has these values.
    - The SQL store is a record of tables; a table is the list of its
      rows in rowid order and [select(..).first()] is the first row
      that satisfies the [where] clause.
    - A SQLModel [Session] is a pair of the committed store and the
      working copy the session reads and writes; [commit] publishes
      the working copy.  An exception leaves the function at once and
      keeps the session as it was at that point.
    - The quote provider ([yfinance]) and the configuration are
      parameters of the engine, gathered in [Env].
    - Timestamps ([created_at], [opened_at], [filled_at]) are not
      modelled. *)

From Stdlib Require Import List Sorted Permutation String Ascii Bool Arith.
From Stdlib Require Import ZArith QArith.
From Stdlib Require Import Lia Lqa.
Import ListNotations.

Local Open Scope string_scope.
Local Open Scope Q_scope.

(** ** Python helpers *)

Module Py.

(** [str.upper] on ASCII text: the letters a..z are mapped to A..Z,
    every other byte is kept. *)
Definition upper_ascii (c : ascii) : ascii :=
  let n := nat_of_ascii c in
  if ((97 <=? n) && (n <=? 122))%nat then ascii_of_nat (n - 32) else c.

Fixpoint upper (s : string) : string :=
  match s with
  | EmptyString => EmptyString
  | String c r => String (upper_ascii c) (upper r)
  end.

(** The text holds 7-bit characters only. *)
Fixpoint is_ascii (s : string) : bool :=
  match s with
  | EmptyString => true
  | String c r => (nat_of_ascii c <? 128)%nat && is_ascii r
  end.

(** [a < b] on floats. *)
Definition ltb (a b : Q) : bool := negb (Qle_bool b a).

End Py.

(** ** app/config.py *)

Record Settings : Type := {
  slippage_bps : Q;
  commistion_per_trade : Q;
  default_cash : Q
}.

(** The defaults of [Settings] when the environment sets nothing. *)
Definition default_settings : Settings :=
  {| slippage_bps := 10; commistion_per_trade := 0.50; default_cash := 5000 |}.

(** ** app/models.py *)

Module Account.
Record t : Type := mk { id : nat; name : string; cash : Q }.
End Account.

Module PositionLot.
Record t : Type := mk {
  id : nat; account_id : nat; symbol : string; qty : Q; avg_cost : Q }.
End PositionLot.

Module Trade.
Record t : Type := mk {
  id : nat; account_id : nat; symbol : string; side : string; qty : Q;
  requested_price : Q; fill_price : Q; commission : Q; slippage_bps : Q;
  note : string }.
End Trade.

Module DailyMark.
Record t : Type := mk {
  id : nat; account_id : nat; marked_on : nat; equity : Q; cash : Q }.
End DailyMark.

(** The tables of the ledger store the engine touches. *)
Record Db : Type := {
  accounts : list Account.t;
  lots : list PositionLot.t;
  trades : list Trade.t;
  marks : list DailyMark.t
}.

Definition empty_db : Db :=
  {| accounts := []; lots := []; trades := []; marks := [] |}.

(** An [INTEGER PRIMARY KEY] column without [AUTOINCREMENT]: a new row
    gets one more than the largest key in the table. *)
Definition next_id (ids : list nat) : nat := S (list_max ids).

(** *** Queries and row updates *)

Definition first_account (name : string) (db : Db) : option Account.t :=
  find (fun a => String.eqb (Account.name a) name) (accounts db).

Definition lot_matches (account_id : nat) (symbol : string)
    (l : PositionLot.t) : bool :=
  Nat.eqb (PositionLot.account_id l) account_id
  && String.eqb (PositionLot.symbol l) symbol.

Definition first_lot (account_id : nat) (symbol : string) (db : Db)
    : option PositionLot.t :=
  find (lot_matches account_id symbol) (lots db).

Definition lots_of (account_id : nat) (db : Db) : list PositionLot.t :=
  filter (fun l => Nat.eqb (PositionLot.account_id l) account_id) (lots db).

Definition with_cash (c : Q) (a : Account.t) : Account.t :=
  Account.mk (Account.id a) (Account.name a) c.

(** [acct.cash = c], written back by primary key. *)
Definition set_cash (id : nat) (c : Q) (db : Db) : Db :=
  {| accounts :=
       map (fun a => if Nat.eqb (Account.id a) id then with_cash c a else a)
           (accounts db);
     lots := lots db; trades := trades db; marks := marks db |}.

Definition with_lot (q avg : Q) (l : PositionLot.t) : PositionLot.t :=
  PositionLot.mk (PositionLot.id l) (PositionLot.account_id l)
                 (PositionLot.symbol l) q avg.

(** [lot.qty = q; lot.avg_cost = avg], written back by primary key. *)
Definition set_lot (id : nat) (q avg : Q) (db : Db) : Db :=
  {| accounts := accounts db;
     lots :=
       map (fun l => if Nat.eqb (PositionLot.id l) id then with_lot q avg l
                     else l)
           (lots db);
     trades := trades db; marks := marks db |}.

(** [session.delete(lot)]. *)
Definition delete_lot (id : nat) (db : Db) : Db :=
  {| accounts := accounts db;
     lots := filter (fun l => negb (Nat.eqb (PositionLot.id l) id)) (lots db);
     trades := trades db; marks := marks db |}.

Definition new_account (name : string) (c : Q) (db : Db) : Account.t :=
  Account.mk (next_id (map Account.id (accounts db))) name c.

Definition add_account (a : Account.t) (db : Db) : Db :=
  {| accounts := accounts db ++ [a];
     lots := lots db; trades := trades db; marks := marks db |}.

Definition new_lot (account_id : nat) (symbol : string) (q avg : Q) (db : Db)
    : PositionLot.t :=
  PositionLot.mk (next_id (map PositionLot.id (lots db)))
                 account_id symbol q avg.

Definition add_lot (l : PositionLot.t) (db : Db) : Db :=
  {| accounts := accounts db; lots := lots db ++ [l];
     trades := trades db; marks := marks db |}.

Definition add_trade (t : Trade.t) (db : Db) : Db :=
  {| accounts := accounts db; lots := lots db;
     trades := trades db ++ [t]; marks := marks db |}.

Definition add_mark (m : DailyMark.t) (db : Db) : Db :=
  {| accounts := accounts db; lots := lots db;
     trades := trades db; marks := marks db ++ [m] |}.

(** ** Failures

    The engine and the screener raise [ValueError] with a message; the
    constructors name the message.  [ZeroDivisionError] and
    [IndexError] are the interpreter's own exceptions. *)
Inductive error : Type :=
| NotFound              (* "Account '..' not found" *)
| NoPriceData           (* "No price data for .." / "No history for .." *)
| InsufficientFunds     (* "Insufficient cash. Need .., have .." *)
| InsufficientShares    (* "Not enough shares to sell. Have .." *)
| InvalidSide           (* "Side must be BUY or SELL" *)
| InsufficientHistory   (* "Not enough data for .." *)
| ZeroDivisionError
| IndexError.

Inductive result (A : Type) : Type :=
| Ok (a : A)
| Raise (e : error).
Arguments Ok {A} a.
Arguments Raise {A} e.

(** ** The session *)

Record Session : Type := {
  store : Db;   (* what is committed *)
  work : Db     (* what the session sees: the store and its own writes *)
}.

(** [get_session()]: a new session on the committed store. *)
Definition open (db : Db) : Session := {| store := db; work := db |}.

Definition M (A : Type) : Type := Session -> result A * Session.

Definition ret {A} (a : A) : M A := fun s => (Ok a, s).

Definition raise {A} (e : error) : M A := fun s => (Raise e, s).

Definition bind {A B} (m : M A) (k : A -> M B) : M B :=
  fun s =>
    match m s with
    | (Ok a, s') => k a s'
    | (Raise e, s') => (Raise e, s')
    end.

Declare Scope session_scope.
Delimit Scope session_scope with session.
Notation "x <- m ;; k" := (bind m (fun x => k))
  (at level 61, m at next level, right associativity) : session_scope.
Notation "m ;; k" := (bind m (fun _ => k))
  (at level 61, right associativity) : session_scope.
Local Open Scope session_scope.

(** [session.exec(select ..)] *)
Definition query {A} (f : Db -> A) : M A := fun s => (Ok (f (work s)), s).

(** A write of the session: an attribute assignment, [session.add] or
    [session.delete]. *)
Definition modify (f : Db -> Db) : M unit :=
  fun s => (Ok tt, {| store := store s; work := f (work s) |}).

(** [session.commit()] *)
Definition commit : M unit :=
  fun s => (Ok tt, {| store := work s; work := work s |}).

(** A call that may raise. *)
Definition lift {A} (e : error) (o : option A) : M A :=
  match o with Some a => ret a | None => raise e end.

(** [a / b] on Python floats. *)
Definition py_div (a b : Q) : M Q :=
  if Qeq_bool b 0 then raise ZeroDivisionError else ret (a / b).

(** [with get_session() as s: f(s)]: the caller's view of one
    operation, the value or the exception and the committed store. *)
Definition run {A} (m : M A) (db : Db) : result A * Db :=
  let (r, s) := m (open db) in (r, store s).

(** ** app/engine.py *)

Record Env : Type := {
  settings : Settings;
  last_price : string -> option Q;   (* [None]: "No price data" *)
  today : nat
}.

Definition _apply_slippage (price : Q) (side : string) (bps : Q) : Q :=
  let slip := price * (bps / 10000) in
  if String.eqb (Py.upper side) "BUY" then price + slip else price - slip.

Definition ensure_account (env : Env) (name : string) (cash : option Q)
    : M Account.t :=
  acct <- query (first_account name) ;;
  match acct with
  | Some acct => ret acct
  | None =>
      let c := match cash with
               | Some c => c
               | None => default_cash (settings env)
               end in
      acct <- query (new_account name c) ;;
      modify (add_account acct) ;;
      commit ;;
      ret acct
  end.

(** The BUY branch after the funds check: lines 48-63. *)
Definition buy_lot (acct : Account.t) (symbol : string) (qty fill total : Q)
    : M unit :=
  modify (set_cash (Account.id acct) (Account.cash acct - total)) ;;
  lot <- query (first_lot (Account.id acct) symbol) ;;
  match lot with
  | Some lot =>
      let new_qty := PositionLot.qty lot + qty in
      avg <- py_div (PositionLot.avg_cost lot * PositionLot.qty lot
                     + fill * qty) new_qty ;;
      modify (set_lot (PositionLot.id lot) new_qty avg)
  | None =>
      l <- query (new_lot (Account.id acct) symbol qty fill) ;;
      modify (add_lot l)
  end.

(** The SELL branch: lines 65-76. *)
Definition sell_lot (acct : Account.t) (symbol : string)
    (qty cost commission : Q) : M unit :=
  lot <- query (first_lot (Account.id acct) symbol) ;;
  match lot with
  | None => raise InsufficientShares
  | Some lot =>
      if Py.ltb (PositionLot.qty lot) qty then raise InsufficientShares
      else
        let proceeds := cost - commission in
        modify (set_cash (Account.id acct) (Account.cash acct + proceeds)) ;;
        let q := PositionLot.qty lot - qty in
        modify (set_lot (PositionLot.id lot) q (PositionLot.avg_cost lot)) ;;
        if Qeq_bool q 0 then modify (delete_lot (PositionLot.id lot))
        else ret tt
  end.

Definition new_trade (acct : Account.t) (symbol side : string)
    (qty px fill commission bps : Q) (note : string) (db : Db) : Trade.t :=
  Trade.mk (next_id (map Trade.id (trades db))) (Account.id acct) symbol side
           qty px fill commission bps note.

Definition place_market_order (env : Env)
    (account_name symbol side : string) (qty : Q) (note : string)
    : M Trade.t :=
  acct <- query (first_account account_name) ;;
  match acct with
  | None => raise NotFound
  | Some acct =>
      px <- lift NoPriceData (last_price env symbol) ;;
      let fill := _apply_slippage px side (slippage_bps (settings env)) in
      let commission := commistion_per_trade (settings env) in
      let side := Py.upper side in
      let cost := fill * qty in
      (if String.eqb side "BUY" then
         let total := cost + commission in
         if Py.ltb (Account.cash acct) total then raise InsufficientFunds
         else buy_lot acct symbol qty fill total
       else if String.eqb side "SELL" then
         sell_lot acct symbol qty cost commission
       else raise InvalidSide) ;;
      tr <- query (new_trade acct symbol side qty px fill commission
                             (slippage_bps (settings env)) note) ;;
      modify (add_trade tr) ;;
      commit ;;
      ret tr
  end.

(** The loop of [compute_equity]: [positions_value += lot.qty * last_price]. *)
Fixpoint positions_value (env : Env) (ls : list PositionLot.t) (acc : Q)
    : M Q :=
  match ls with
  | [] => ret acc
  | lot :: rest =>
      px <- lift NoPriceData (last_price env (PositionLot.symbol lot)) ;;
      positions_value env rest (acc + PositionLot.qty lot * px)
  end.

Definition compute_equity (env : Env) (account_name : string) : M Q :=
  acct <- query (first_account account_name) ;;
  match acct with
  | None => raise NotFound
  | Some acct =>
      ls <- query (lots_of (Account.id acct)) ;;
      v <- positions_value env ls 0 ;;
      ret (Account.cash acct + v)
  end.

Definition new_mark (acct : Account.t) (d : nat) (equity : Q) (db : Db)
    : DailyMark.t :=
  DailyMark.mk (next_id (map DailyMark.id (marks db))) (Account.id acct) d
               equity (Account.cash acct).

Definition mark_to_market (env : Env) (account_name : string)
    : M DailyMark.t :=
  acct <- query (first_account account_name) ;;
  match acct with
  | None => raise NotFound
  | Some acct =>
      equity <- compute_equity env account_name ;;
      mark <- query (new_mark acct (today env) equity) ;;
      modify (add_mark mark) ;;
      commit ;;
      ret mark
  end.


(** The end of a successful order, lines 81-96: the trade row is added
    to the working copy [w] and the session commits. *)
Definition booked (env : Env) (acct : Account.t) (symbol side : string)
    (qty px : Q) (note : string) (w : Db) : result Trade.t * Session :=
  let bps := slippage_bps (settings env) in
  let tr := new_trade acct symbol (Py.upper side) qty px
                      (_apply_slippage px side bps)
                      (commistion_per_trade (settings env)) bps note w in
  (Ok tr, open (add_trade tr w)).



(** ** The public operations as calls on the committed store *)

Inductive call : Type :=
| CallEnsureAccount (name : string) (cash : option Q)
| CallPlaceMarketOrder (account_name symbol side : string) (qty : Q)
                       (note : string)
| CallComputeEquity (account_name : string)
| CallMarkToMarket (account_name : string).

(** One call in a session of its own; the quotes, the configuration
    and the date are those of the moment of the call. *)
Definition exec (env : Env) (c : call) (db : Db) : Db :=
  match c with
  | CallEnsureAccount name cash => snd (run (ensure_account env name cash) db)
  | CallPlaceMarketOrder a sy sd q n =>
      snd (run (place_market_order env a sy sd q n) db)
  | CallComputeEquity a => snd (run (compute_equity env a) db)
  | CallMarkToMarket a => snd (run (mark_to_market env a) db)
  end.

(** The stores reachable from the empty one by calls that satisfy [P]. *)
Inductive reachable_by (P : call -> Prop) : Db -> Prop :=
| reach_empty : reachable_by P empty_db
| reach_call env c db :
    reachable_by P db -> P c -> reachable_by P (exec env c db).

Definition any_call (c : call) : Prop := True.

Definition positive_qty (c : call) : Prop :=
  match c with
  | CallPlaceMarketOrder _ _ _ q _ => 0 < q
  | _ => True
  end.

Definition reachable : Db -> Prop := reachable_by any_call.

(** Every lot holds a quantity [>= 0] and none holds zero. *)
Definition lots_positive (db : Db) : Prop :=
  forall l, In l (lots db) ->
    0 <= PositionLot.qty l /\ ~ PositionLot.qty l == 0.

(** ** The scenario of the specification

    Symbol XYZ quoted at 100, 10 bps of slippage, a commission of 0.50,
    and the account "core" seeded with 5000. *)

Definition quote_100 (symbol : string) : option Q :=
  if String.eqb symbol "XYZ" then Some 100 else None.

Definition env_100 : Env :=
  {| settings := default_settings; last_price := quote_100; today := 0%nat |}.

Definition db_core : Db :=
  snd (run (ensure_account env_100 "core" (Some 5000)) empty_db).

(** The store after the BUY of 10 shares of the scenario. *)
Definition db_long : Db :=
  snd (run (place_market_order env_100 "core" "XYZ" "BUY" 10 "") db_core).

(** ** Values of a pandas float column

    The inputs are finite; a division by zero inside pandas gives an
    infinity or NaN instead of raising. *)

Inductive npfloat : Type :=
| Fin (q : Q)
| PosInf
| NegInf
| NaN.

Definition np_div (a b : Q) : npfloat :=
  if Qeq_bool b 0 then
    if Qeq_bool a 0 then NaN else if Py.ltb 0 a then PosInf else NegInf
  else Fin (a / b).

Definition np_add (x y : npfloat) : npfloat :=
  match x, y with
  | NaN, _ | _, NaN => NaN
  | Fin a, Fin b => Fin (a + b)
  | PosInf, NegInf | NegInf, PosInf => NaN
  | PosInf, _ | _, PosInf => PosInf
  | NegInf, _ | _, NegInf => NegInf
  end.

Definition np_sub (x y : npfloat) : npfloat :=
  match x, y with
  | NaN, _ | _, NaN => NaN
  | Fin a, Fin b => Fin (a - b)
  | PosInf, PosInf | NegInf, NegInf => NaN
  | PosInf, _ | _, NegInf => PosInf
  | NegInf, _ | _, PosInf => NegInf
  end.

(** The smaller of two values, a NaN being skipped. *)
Definition np_min2 (x y : npfloat) : npfloat :=
  match x, y with
  | NaN, z | z, NaN => z
  | NegInf, _ | _, NegInf => NegInf
  | PosInf, z | z, PosInf => z
  | Fin a, Fin b => if Qle_bool a b then Fin a else Fin b
  end.

(** [Series.min()]: NaN entries are skipped; NaN when nothing is left. *)
Definition np_min (l : list npfloat) : npfloat := fold_right np_min2 NaN l.

(** ** app/compare.py *)

Definition qmax (a b : Q) : Q := if Qle_bool a b then b else a.

(** [Series.cummax()], the running peak, from the peak so far. *)
Fixpoint cummax_from (peak : Q) (l : list Q) : list Q :=
  match l with
  | [] => []
  | x :: r => let p := qmax peak x in p :: cummax_from p r
  end.

Definition cummax (l : list Q) : list Q :=
  match l with
  | [] => []
  | x :: r => x :: cummax_from x r
  end.

(** [(series / peak) - 1], element by element. *)
Fixpoint drawdowns (series peak : list Q) : list npfloat :=
  match series, peak with
  | x :: r, p :: r' => np_sub (np_div x p) (Fin 1) :: drawdowns r r'
  | _, _ => []
  end.

Definition max_drawdown (series : list Q) : npfloat :=
  let peak := cummax series in
  let dd := drawdowns series peak in
  np_min dd.

(** The finite values [x / p - 1] of a series against a peak column. *)
Definition ratios (series peak : list Q) : list Q :=
  map (fun xp => fst xp / snd xp - 1) (combine series peak).

(** The dashboard's own copy of the function, [app/ui.py] lines 23-26. *)
Module Ui.
Definition max_drawdown (series : list Q) : npfloat :=
  let peak := cummax series in
  let dd := drawdowns series peak in
  if (0 <? List.length dd)%nat then np_min dd else Fin 0.
End Ui.

(** ** app/market_data.py and app/screener.py *)

(** The [Close] column of [yf.Ticker(symbol).history(period, "1d")];
    [None] is a missing value. *)
Definition Provider : Type := string -> string -> list (option Q).

Definition rbind {A B} (r : result A) (k : A -> result B) : result B :=
  match r with
  | Ok a => k a
  | Raise e => Raise e
  end.

Definition history (yf : Provider) (symbol period : string)
    : result (list (option Q)) :=
  let df := yf symbol period in
  match df with
  | [] => Raise NoPriceData
  | _ => Ok df
  end.

(** [Series.dropna()] *)
Fixpoint dropna (l : list (option Q)) : list Q :=
  match l with
  | [] => []
  | Some x :: r => x :: dropna r
  | None :: r => dropna r
  end.

(** [Series.iloc[i]]: a negative position counts from the end, a
    position outside the series raises [IndexError]. *)
Definition iloc (l : list Q) (i : Z) : result Q :=
  let n := Z.of_nat (List.length l) in
  let j := (if i <? 0 then n + i else i)%Z in
  if ((j <? 0) || (n <=? j))%Z then Raise IndexError
  else match nth_error l (Z.to_nat j) with
       | Some x => Ok x
       | None => Raise IndexError
       end.

Definition qsum (l : list Q) : Q := fold_right Qplus 0 l.

(** The last [n] entries. *)
Definition tail_n (n : nat) (l : list Q) : list Q :=
  skipn (List.length l - n) l.

(** The row [momentum_score] returns; [vol_20d], a standard deviation,
    has no exact rational value and is left out. *)
Module Score.
Record t : Type := mk {
  symbol : string;
  ret_1m : npfloat;
  ret_3m : npfloat;
  ret_6m : npfloat;
  above_sma50 : bool;
  score : npfloat }.
End Score.

Definition momentum_score (yf : Provider) (symbol : string)
    : result Score.t :=
  rbind (history yf symbol "6mo") (fun df =>
  let close := dropna df in
  if (List.length close <? 60)%nat then Raise InsufficientHistory
  else
    rbind (iloc close (-1)) (fun last =>
    rbind (iloc close (-21)) (fun c21 =>
    let ret_1m := np_sub (np_div last c21) (Fin 1) in
    rbind (iloc close (-63)) (fun c63 =>
    let ret_3m := np_sub (np_div last c63) (Fin 1) in
    rbind (iloc close 0) (fun c0 =>
    let ret_6m := np_sub (np_div last c0) (Fin 1) in
    let sma50 := qsum (tail_n 50 close) / 50 in
    let above_sma50 := Py.ltb sma50 last in
    Ok (Score.mk symbol ret_1m ret_3m ret_6m above_sma50
                 (np_add ret_3m ret_1m))))))).

(** A provider that returns [n] sessions, each closing at [c]. *)
Definition flat_history (n : nat) (c : Q) : Provider :=
  fun _ _ => repeat (Some c) n.

(** ** Stores that respect the keys of the schema *)

Definition lot_key (l : PositionLot.t) : nat * string :=
  (PositionLot.account_id l, PositionLot.symbol l).

(** Primary keys are unique, account names are unique and there is at
    most one lot per (account, symbol). *)
Record well_formed (db : Db) : Prop := {
  account_ids_unique : NoDup (map Account.id (accounts db));
  account_names_unique : NoDup (map Account.name (accounts db));
  lot_ids_unique : NoDup (map PositionLot.id (lots db));
  lot_keys_unique : NoDup (map lot_key (lots db));
  trade_ids_unique : NoDup (map Trade.id (trades db));
  mark_ids_unique : NoDup (map DailyMark.id (marks db))
}.



(** ** app/reports.py *)

Module Reports.

(** One tuple of [positions]: (symbol, qty, avg_cost, px, mv, pnl). *)
Record row : Type := mk {
  symbol : string; qty : Q; avg_cost : Q; px : Q; mv : Q; pnl : Q }.

(** [positions] does not test the account it looked up: [acct.id] on
    [None] ends in [AttributeError]. *)
Inductive outcome (A : Type) : Type :=
| Done (a : A)
| Failed (e : error)
| AttributeError.
Arguments Done {A} a.
Arguments Failed {A} e.
Arguments AttributeError {A}.

(** The loop over the lots, lines 13-17. *)
Fixpoint rows (env : Env) (ls : list PositionLot.t) (out : list row)
    : result (list row) :=
  match ls with
  | [] => Ok out
  | lot :: rest =>
      match last_price env (PositionLot.symbol lot) with
      | None => Raise NoPriceData
      | Some px =>
          let mv := px * PositionLot.qty lot in
          let pnl := (px - PositionLot.avg_cost lot) * PositionLot.qty lot in
          rows env rest
               (out ++ [mk (PositionLot.symbol lot) (PositionLot.qty lot)
                           (PositionLot.avg_cost lot) px mv pnl])
      end
  end.


End Reports.

(** The write an order makes to the lots, on the working copy [w0]
    that already holds the new cash; [side] is the upper-cased side. *)
Inductive lot_write (acct : Account.t) (symbol : string) (qty fill : Q)
    (side : string) (w0 : Db) : Db -> Prop :=
| lot_opened :
    side = "BUY" ->
    first_lot (Account.id acct) symbol w0 = None ->
    lot_write acct symbol qty fill side w0
      (add_lot (new_lot (Account.id acct) symbol qty fill w0) w0)
| lot_merged lot :
    side = "BUY" ->
    first_lot (Account.id acct) symbol w0 = Some lot ->
    ~ PositionLot.qty lot + qty == 0 ->
    lot_write acct symbol qty fill side w0
      (set_lot (PositionLot.id lot) (PositionLot.qty lot + qty)
         ((PositionLot.avg_cost lot * PositionLot.qty lot + fill * qty)
          / (PositionLot.qty lot + qty)) w0)
| lot_reduced lot :
    side = "SELL" ->
    first_lot (Account.id acct) symbol w0 = Some lot ->
    qty <= PositionLot.qty lot ->
    ~ PositionLot.qty lot - qty == 0 ->
    lot_write acct symbol qty fill side w0
      (set_lot (PositionLot.id lot) (PositionLot.qty lot - qty)
         (PositionLot.avg_cost lot) w0)
| lot_closed lot :
    side = "SELL" ->
    first_lot (Account.id acct) symbol w0 = Some lot ->
    PositionLot.qty lot - qty == 0 ->
    lot_write acct symbol qty fill side w0
      (delete_lot (PositionLot.id lot)
         (set_lot (PositionLot.id lot) (PositionLot.qty lot - qty)
            (PositionLot.avg_cost lot) w0)).

(** The cash an order leaves on the account. *)
Definition cash_after (side : string) (cash fill qty commission : Q) : Q :=
  if String.eqb side "BUY" then cash - (fill * qty + commission)
  else cash + (fill * qty - commission).

(** ** app/compare.py: the summary *)

Module Summary.
Record t : Type := mk {
  portfolio_return : npfloat;
  benchmark_return : npfloat;
  alpha : npfloat;
  portfolio_max_dd : npfloat;
  benchmark_max_dd : npfloat }.
End Summary.

(** [(series.iloc[-1] / series.iloc[0]) - 1] *)
Definition total_return (series : list Q) : result npfloat :=
  rbind (iloc series (-1)) (fun last =>
  rbind (iloc series 0) (fun first =>
  Ok (np_sub (np_div last first) (Fin 1)))).

Definition summary (portfolio benchmark : list Q) : result Summary.t :=
  rbind (total_return portfolio) (fun p_ret =>
  rbind (total_return benchmark) (fun b_ret =>
  Ok (Summary.mk p_ret b_ret (np_sub p_ret b_ret)
                 (max_drawdown portfolio) (max_drawdown benchmark)))).

(** ** app/screener.py: the screen *)

(** [x] does not come after [y] when a column is sorted with
    [ascending=False]: larger first, NaN last. *)
Definition np_geb (x y : npfloat) : bool :=
  match x, y with
  | _, NaN => true
  | NaN, _ => false
  | PosInf, _ => true
  | _, PosInf => false
  | _, NegInf => true
  | NegInf, _ => false
  | Fin a, Fin b => Qle_bool b a
  end.

Definition score_before (r1 r2 : Score.t) : Prop :=
  np_geb (Score.score r1) (Score.score r2) = true.

(** What [DataFrame.sort_values("score", ascending=False)] promises:
    the same rows, in descending order of the score.  The order of
    rows with equal scores is not fixed by pandas (the default sort is
    not stable), so the sort is a parameter of [screen]. *)
Definition sorts_by_score (sort_values : list Score.t -> list Score.t)
    : Prop :=
  forall rows,
    Permutation rows (sort_values rows)
    /\ Sorted score_before (sort_values rows).

(** [DataFrame.head(n)]: the first [n] rows, or all but the last [-n]
    when [n] is negative. *)
Definition head {A} (n : Z) (l : list A) : list A :=
  if (0 <=? n)%Z then firstn (Z.to_nat n) l
  else firstn (List.length l - Z.to_nat (- n)) l.

(** The rows of the symbols whose score does not raise, lines 33-38. *)
Definition scored (yf : Provider) (symbols : list string) : list Score.t :=
  flat_map (fun s => match momentum_score yf s with
                     | Ok row => [row]
                     | Raise _ => []
                     end) symbols.

Definition screen (sort_values : list Score.t -> list Score.t)
    (yf : Provider) (symbols : list string) (top_n : Z) : list Score.t :=
  let rows := scored yf symbols in
  match rows with
  | [] => []
  | _ => head top_n (sort_values rows)
  end.

(** A sort that meets [sorts_by_score]: insertion, equal scores in the
    order of the input. *)
Fixpoint insert_by_score (r : Score.t) (l : list Score.t) : list Score.t :=
  match l with
  | [] => [r]
  | x :: t =>
      if np_geb (Score.score r) (Score.score x) then r :: l
      else x :: insert_by_score r t
  end.

Definition sort_by_score (l : list Score.t) : list Score.t :=
  fold_right insert_by_score [] l.

(** Two providers for examples: [n] sessions that rise by one from
    [c], and a history that is long for one symbol and short for the
    others. *)
Definition rising_history (n : nat) (c : Q) : list (option Q) :=
  map (fun i => Some (c + inject_Z (Z.of_nat i))) (seq 0 n).

Definition one_long_history (symbol : string) : Provider :=
  fun s _ => if String.eqb s symbol then rising_history 63 100
             else rising_history 10 100.

(** ** app/benchmark.py *)

(** [x * y] on numpy floats. *)
Definition np_mul (x y : npfloat) : npfloat :=
  match x, y with
  | NaN, _ | _, NaN => NaN
  | Fin a, Fin b => Fin (a * b)
  | PosInf, Fin b | Fin b, PosInf =>
      if Qeq_bool b 0 then NaN else if Py.ltb 0 b then PosInf else NegInf
  | NegInf, Fin b | Fin b, NegInf =>
      if Qeq_bool b 0 then NaN else if Py.ltb 0 b then NegInf else PosInf
  | PosInf, PosInf | NegInf, NegInf => PosInf
  | PosInf, NegInf | NegInf, PosInf => NegInf
  end.

(** [a / b] on two cells of a [Close] column; a missing cell is NaN. *)
Definition np_div_close (a b : option Q) : npfloat :=
  match a, b with
  | Some x, Some y => np_div x y
  | _, _ => NaN
  end.

Module BenchmarkMark.
Record t : Type := mk {
  id : nat; symbol : string; marked_on : nat; value : npfloat }.
End BenchmarkMark.

Module Benchmark.

(** The table of benchmark marks, in rowid order.  Both functions
    commit right after their only write and raise before it, so the
    committed table is all the state there is. *)
Definition table : Type := list BenchmarkMark.t.

Inductive failure : Type :=
| NotInitialized                (* "Benchmark .. not initialized" *)
| HistoryError (e : error).     (* raised by [history] *)

Inductive outcome (A : Type) : Type :=
| Done (a : A)
| Failed (e : failure).
Arguments Done {A} a.
Arguments Failed {A} e.

Definition rows_of (symbol : string) (t : table) : table :=
  filter (fun m => String.eqb (BenchmarkMark.symbol m) symbol) t.

(** What [order_by(marked_on.desc()).first()] promises on the rows of
    one symbol: nothing when there is no row, otherwise a row of the
    latest date.  Which row it is among several of that date is not
    fixed by the query, so the choice is a parameter. *)
Definition picks_latest (latest : table -> option BenchmarkMark.t) : Prop :=
  forall rows,
    match latest rows with
    | None => rows = []
    | Some m =>
        In m rows
        /\ forall m', In m' rows ->
             (BenchmarkMark.marked_on m' <= BenchmarkMark.marked_on m)%nat
    end.

Definition init_benchmark (today : nat) (symbol : string) (start_value : Q)
    (t : table) : table :=
  match find (fun m => String.eqb (BenchmarkMark.symbol m) symbol) t with
  | Some _ => t
  | None =>
      (t ++ [BenchmarkMark.mk (next_id (map BenchmarkMark.id t)) symbol today
                              (Fin start_value)])%list
  end.

(** The cell of [df["Close"]] at position [-k], for [k] within the
    frame. *)
Definition close_from_end (df : list (option Q)) (k : nat) : option Q :=
  nth (List.length df - k) df None.

Definition mark_benchmark (latest : table -> option BenchmarkMark.t)
    (yf : Provider) (today : nat) (symbol : string) (t : table)
    : outcome BenchmarkMark.t * table :=
  match latest (rows_of symbol t) with
  | None => (Failed NotInitialized, t)
  | Some last =>
      match history yf symbol "10d" with
      | Raise e => (Failed (HistoryError e), t)
      | Ok df =>
          if (List.length df <? 2)%nat then (Done last, t)
          else
            let ret := np_sub (np_div_close (close_from_end df 1)
                                            (close_from_end df 2)) (Fin 1) in
            let new_value := np_mul (BenchmarkMark.value last)
                                    (np_add (Fin 1) ret) in
            let bm := BenchmarkMark.mk (next_id (map BenchmarkMark.id t))
                                       symbol today new_value in
            (Done bm, (t ++ [bm])%list)
      end
  end.

(** A choice that meets [picks_latest]: of the rows of the latest date,
    the first in rowid order. *)
Fixpoint latest_row (rows : table) : option BenchmarkMark.t :=
  match rows with
  | [] => None
  | m :: r =>
      match latest_row r with
      | None => Some m
      | Some m' =>
          if (BenchmarkMark.marked_on m' <=? BenchmarkMark.marked_on m)%nat
          then Some m else Some m'
      end
  end.

(** A provider whose history ends with the closes 100 and 110. *)
Definition two_closes : Provider := fun _ _ => [Some 100; Some 110].

End Benchmark.

(** ** app/cli.py: the commands that call the engine *)

Module Cli.

(** [if x:] on a float. *)
Definition truthy (x : Q) : bool := negb (Qeq_bool x 0).

(** The [init] command, in one session. *)
Definition init (env : Env) (core_cash risk_cash : Q) : M unit :=
  (if truthy core_cash
   then ensure_account env "core" (Some core_cash) ;; ret tt
   else ret tt) ;;
  (if truthy risk_cash
   then ensure_account env "risk" (Some risk_cash) ;; ret tt
   else ret tt) ;;
  (if negb (truthy core_cash) && negb (truthy risk_cash)
   then ensure_account env "core" None ;;
        ensure_account env "risk" None ;; ret tt
   else ret tt).



End Cli.

(** * Properties *)

(** ** Comparisons *)


Lemma ltb_false a b : Py.ltb a b = false <-> b <= a.
Proof.
  unfold Py.ltb. rewrite negb_false_iff. apply Qle_bool_iff.
Qed.

Lemma eqb_false a b : Qeq_bool a b = false <-> ~ a == b.
Proof.
  rewrite <- not_true_iff_false, Qeq_bool_iff. reflexivity.
Qed.


(** ** Lookups after a write *)


Lemma find_app_none {A} (p : A -> bool) (l : list A) (a : A) :
  find p l = None -> find p (l ++ [a]) = if p a then Some a else None.
Proof.
  induction l as [|b l IH]; simpl; [reflexivity|].
  destruct (p b); [discriminate | exact IH].
Qed.



Lemma first_lot_found aid symbol db lot :
  first_lot aid symbol db = Some lot ->
  In lot (lots db)
  /\ PositionLot.account_id lot = aid /\ PositionLot.symbol lot = symbol.
Proof.
  intros Hf. apply find_some in Hf. destruct Hf as [Hin Hm].
  unfold lot_matches in Hm. apply andb_true_iff in Hm.
  destruct Hm as [Ha Hs].
  apply Nat.eqb_eq in Ha. apply String.eqb_eq in Hs. auto.
Qed.

(** ** The outcome of an order, branch by branch *)

Section Order.

Variable env : Env.
Variables (account_name symbol side note : string) (qty : Q).
Variable s : Session.

Let bps := slippage_bps (settings env).
Let commission := commistion_per_trade (settings env).

Lemma order_not_found :
  first_account account_name (work s) = None ->
  place_market_order env account_name symbol side qty note s
  = (Raise NotFound, s).
Proof.
  intros Ha. unfold place_market_order, bind, query. rewrite Ha.
  reflexivity.
Qed.

Variable acct : Account.t.
Hypothesis Hacct : first_account account_name (work s) = Some acct.

Lemma order_no_price :
  last_price env symbol = None ->
  place_market_order env account_name symbol side qty note s
  = (Raise NoPriceData, s).
Proof.
  intros Hp. unfold place_market_order, bind, query. rewrite Hacct, Hp.
  reflexivity.
Qed.

Variable px : Q.
Hypothesis Hpx : last_price env symbol = Some px.

Let fill := _apply_slippage px side bps.

Lemma order_invalid_side :
  Py.upper side <> "BUY" -> Py.upper side <> "SELL" ->
  place_market_order env account_name symbol side qty note s
  = (Raise InvalidSide, s).
Proof.
  intros Hb Hs. apply String.eqb_neq in Hb, Hs.
  unfold place_market_order, bind, query. rewrite Hacct, Hpx. simpl.
  rewrite Hb, Hs. reflexivity.
Qed.

Lemma order_buy :
  Py.upper side = "BUY" ->
  let total := fill * qty + commission in
  let w := set_cash (Account.id acct) (Account.cash acct - total) (work s) in
  place_market_order env account_name symbol side qty note s
  = if Py.ltb (Account.cash acct) total then (Raise InsufficientFunds, s)
    else
      match first_lot (Account.id acct) symbol (work s) with
      | Some lot =>
          let new_qty := PositionLot.qty lot + qty in
          if Qeq_bool new_qty 0
          then (Raise ZeroDivisionError, {| store := store s; work := w |})
          else
            booked env acct symbol side qty px note
              (set_lot (PositionLot.id lot) new_qty
                 ((PositionLot.avg_cost lot * PositionLot.qty lot
                   + fill * qty) / new_qty) w)
      | None =>
          booked env acct symbol side qty px note
            (add_lot (new_lot (Account.id acct) symbol qty fill w) w)
      end.
Proof.
  intros Hb total w.
  unfold place_market_order, booked, bind, query. rewrite Hacct, Hpx. simpl.
  rewrite Hb. simpl. fold bps commission fill total.
  destruct (Py.ltb (Account.cash acct) total); [reflexivity|].
  unfold buy_lot, bind, query, modify, py_div. simpl.
  change (first_lot (Account.id acct) symbol
            (set_cash (Account.id acct) (Account.cash acct - total) (work s)))
    with (first_lot (Account.id acct) symbol (work s)).
  destruct (first_lot (Account.id acct) symbol (work s)) as [lot|].
  - unfold ret, raise.
    destruct (Qeq_bool (PositionLot.qty lot + qty) 0); reflexivity.
  - reflexivity.
Qed.

Lemma order_sell :
  Py.upper side = "SELL" ->
  let proceeds := fill * qty - commission in
  let w := set_cash (Account.id acct) (Account.cash acct + proceeds)
                    (work s) in
  place_market_order env account_name symbol side qty note s
  = match first_lot (Account.id acct) symbol (work s) with
    | None => (Raise InsufficientShares, s)
    | Some lot =>
        if Py.ltb (PositionLot.qty lot) qty
        then (Raise InsufficientShares, s)
        else
          let q := PositionLot.qty lot - qty in
          let w' := set_lot (PositionLot.id lot) q
                            (PositionLot.avg_cost lot) w in
          if Qeq_bool q 0
          then booked env acct symbol side qty px note
                      (delete_lot (PositionLot.id lot) w')
          else booked env acct symbol side qty px note w'
    end.
Proof.
  intros Hs proceeds w.
  unfold place_market_order, booked, bind, query. rewrite Hacct, Hpx. simpl.
  rewrite Hs. simpl. fold bps commission fill.
  unfold sell_lot, bind, query, modify. simpl.
  destruct (first_lot (Account.id acct) symbol (work s)) as [lot|];
    [|reflexivity].
  destruct (Py.ltb (PositionLot.qty lot) qty); [reflexivity|]. simpl.
  destruct (Qeq_bool (PositionLot.qty lot - qty) 0); reflexivity.
Qed.

End Order.

(** ** Accounts after an order or a lookup *)

Lemma first_account_same name db db' :
  accounts db' = accounts db ->
  first_account name db' = first_account name db.
Proof. unfold first_account. intros ->. reflexivity. Qed.




(** C10. [ensure_account] is a lookup-or-create: an account that exists
    under the name is returned and the session is left as it was,
    whatever the cash argument; otherwise one account is created and
    committed, holding the given cash or the configured default; a
    second call under the same name returns the same account and
    changes nothing. *)
Theorem ensure_account_idempotent :
  forall (env : Env) (name : string) (cash : option Q) (s : Session),
    (forall acct,
        first_account name (work s) = Some acct ->
        ensure_account env name cash s = (Ok acct, s))
    /\ (first_account name (work s) = None ->
        exists acct,
          ensure_account env name cash s
          = (Ok acct, open (add_account acct (work s)))
          /\ Account.name acct = name
          /\ Account.cash acct
             = match cash with
               | Some c => c
               | None => default_cash (settings env)
               end)
    /\ (forall (env' : Env) (cash' : option Q),
        let (r, s1) := ensure_account env name cash s in
        ensure_account env' name cash' s1 = (r, s1)).
Proof.
  intros env name cash s.
  assert (Hhit : forall e c t acct,
             first_account name (work t) = Some acct ->
             ensure_account e name c t = (Ok acct, t)).
  { intros e c t acct H. unfold ensure_account, bind, query.
    rewrite H. reflexivity. }
  split; [apply Hhit|]. split.
  - intros Hnone. eexists. split; [|split].
    + unfold ensure_account, bind, query. rewrite Hnone. reflexivity.
    + reflexivity.
    + reflexivity.
  - intros env' cash'.
    destruct (first_account name (work s)) as [acct|] eqn:Hf.
    + rewrite (Hhit env cash s acct Hf). apply Hhit, Hf.
    + unfold ensure_account at 1. unfold bind, query. rewrite Hf. simpl.
      apply Hhit. unfold first_account, add_account. simpl.
      unfold first_account in Hf. rewrite (find_app_none _ _ _ Hf).
      simpl. rewrite String.eqb_refl. reflexivity.
Qed.

Lemma ensure_account_idempotent_witness :
  ensure_account env_100 "core" (Some 1) (open db_core)
  = (Ok (Account.mk 1 "core" 5000), open db_core).
Proof.
  apply (proj1 (ensure_account_idempotent env_100 "core" (Some 1)
                  (open db_core))).
  reflexivity.
Defined.

(** C9, as the claim states it: a side text other than BUY and SELL
    makes the order fail with InvalidSide.  The side "buy" on the
    account of the scenario is accepted as a BUY. *)
Lemma invalid_side_counterexample :
  ~ (forall (env : Env) (s : Session) (account_name symbol side : string)
            (qty : Q) (note : string),
        side <> "BUY" -> side <> "SELL" ->
        place_market_order env account_name symbol side qty note s
        = (Raise InvalidSide, s)).
Proof.
  intros H.
  specialize (H env_100 (open db_core) "core" "XYZ" "buy" 10 "").
  assert (H' := H ltac:(discriminate) ltac:(discriminate)).
  vm_compute in H'. discriminate H'.
Qed.

(** C9, amended.  The side is compared after upper-casing, and after
    the account and the quote are resolved: for an ASCII side text
    whose upper-case form is neither BUY nor SELL the order fails and
    the session is left as it was; the failure is InvalidSide when the
    account exists and the symbol has a quote, NotFound when the
    account is missing, NoPriceData when the quote is. *)
Theorem invalid_side_rejected :
  forall (env : Env) (s : Session) (account_name symbol side : string)
         (qty : Q) (note : string),
    Py.is_ascii side = true ->
    Py.upper side <> "BUY" -> Py.upper side <> "SELL" ->
    place_market_order env account_name symbol side qty note s
    = (Raise
         match first_account account_name (work s) with
         | None => NotFound
         | Some _ =>
             match last_price env symbol with
             | None => NoPriceData
             | Some _ => InvalidSide
             end
         end, s).
Proof.
  intros env s account_name symbol side qty note _ Hb Hs.
  destruct (first_account account_name (work s)) as [acct|] eqn:Ha.
  - destruct (last_price env symbol) as [px|] eqn:Hp.
    + eapply order_invalid_side; eauto.
    + eapply order_no_price; eauto.
  - apply order_not_found, Ha.
Qed.

Lemma invalid_side_rejected_witness :
  place_market_order env_100 "core" "XYZ" "hold" 10 "" (open db_core)
  = (Raise InvalidSide, open db_core).
Proof.
  apply (invalid_side_rejected env_100 (open db_core) "core" "XYZ" "hold"
           10 "");
    [reflexivity | discriminate | discriminate].
Defined.

(** ** A successful order *)







(** ** Lots after an order *)


Lemma set_lot_in id q avg db l :
  In l (lots (set_lot id q avg db)) ->
  (In l (lots db) /\ PositionLot.id l <> id)
  \/ (exists l0, In l0 (lots db) /\ PositionLot.id l0 = id
                 /\ l = with_lot q avg l0).
Proof.
  unfold set_lot. simpl. rewrite in_map_iff. intros (l0 & Hl & Hin).
  destruct (Nat.eqb_spec (PositionLot.id l0) id) as [He|Hne].
  - right. exists l0. auto.
  - left. subst l. auto.
Qed.

Lemma set_lot_other id q avg db l :
  PositionLot.id l <> id ->
  (In l (lots (set_lot id q avg db)) <-> In l (lots db)).
Proof.
  intros Hne. split.
  - intros H. apply set_lot_in in H.
    destruct H as [[H _] | (l0 & _ & Hid & ->)]; [exact H|].
    simpl in Hne. contradiction.
  - intros H. unfold set_lot. simpl. apply in_map_iff. exists l.
    split; [|exact H].
    apply Nat.eqb_neq in Hne. rewrite Hne. reflexivity.
Qed.

Lemma delete_lot_in id db l :
  In l (lots (delete_lot id db)) <-> In l (lots db) /\ PositionLot.id l <> id.
Proof.
  unfold delete_lot. simpl. rewrite filter_In, negb_true_iff, Nat.eqb_neq.
  reflexivity.
Qed.





(** ** Failure and success of an order *)




(** A failure outside the five: a BUY of [-10] into the lot of 10 makes
    the merged quantity zero and the average cost divides by it.  The
    cash is already debited in the working copy; the committed store is
    as before. *)
Example order_zero_division :
  let out := place_market_order env_100 "core" "XYZ" "BUY" (-10) ""
                                (open db_long) in
  fst out = Raise ZeroDivisionError
  /\ store (snd out) = db_long
  /\ work (snd out) <> db_long.
Proof.
  cbv zeta. split; [reflexivity|]. split; [reflexivity|].
  intros H. vm_compute in H. discriminate H.
Qed.

(** ** The lots of the reachable stores *)

Lemma run_store {A} (m : M A) (db : Db) :
  snd (run m db) = store (snd (m (open db))).
Proof. unfold run. destruct (m (open db)). reflexivity. Qed.

Lemma positions_value_pure env ls : forall acc s,
  snd (positions_value env ls acc s) = s.
Proof.
  induction ls as [|lot rest IH]; intros acc s; simpl; [reflexivity|].
  unfold bind, lift.
  destruct (last_price env (PositionLot.symbol lot)); simpl;
    [apply IH | reflexivity].
Qed.

Lemma compute_equity_pure env account_name s :
  snd (compute_equity env account_name s) = s.
Proof.
  unfold compute_equity, bind, query.
  destruct (first_account account_name (work s)) as [acct|];
    [|reflexivity].
  simpl.
  pose proof (positions_value_pure env (lots_of (Account.id acct) (work s))
                0 s) as Hp.
  destruct (positions_value env (lots_of (Account.id acct) (work s)) 0 s)
    as [[v|e] s']; simpl in Hp; subst s'; reflexivity.
Qed.

Lemma ensure_account_lots env name cash db :
  lots (exec env (CallEnsureAccount name cash) db) = lots db.
Proof.
  unfold exec. rewrite run_store.
  unfold ensure_account, bind, query. simpl.
  destruct (first_account name db); reflexivity.
Qed.

Lemma mark_to_market_lots env account_name db :
  lots (exec env (CallMarkToMarket account_name) db) = lots db.
Proof.
  unfold exec. rewrite run_store.
  unfold mark_to_market, bind, query. simpl.
  destruct (first_account account_name db) as [acct|]; [|reflexivity].
  pose proof (compute_equity_pure env account_name (open db)) as Hp.
  destruct (compute_equity env account_name (open db)) as [[v|e] s'];
    simpl in Hp; subst s'; reflexivity.
Qed.

Lemma compute_equity_store env account_name db :
  exec env (CallComputeEquity account_name) db = db.
Proof.
  unfold exec. rewrite run_store, compute_equity_pure. reflexivity.
Qed.

(** The lots an order leaves in the committed store. *)
Lemma order_lots env s account_name symbol side qty note :
  let after := store (snd (place_market_order env account_name symbol side
                             qty note s)) in
  after = store s
  \/ exists acct,
       first_account account_name (work s) = Some acct
       /\ ((first_lot (Account.id acct) symbol (work s) = None
            /\ exists avg,
                 lots after
                 = (lots (work s)
                    ++ [new_lot (Account.id acct) symbol qty avg (work s)])%list)
           \/ (exists lot avg,
                 first_lot (Account.id acct) symbol (work s) = Some lot
                 /\ Py.upper side = "BUY"
                 /\ lots after
                    = lots (set_lot (PositionLot.id lot)
                              (PositionLot.qty lot + qty) avg (work s)))
           \/ (exists lot,
                 let q := PositionLot.qty lot - qty in
                 let w := set_lot (PositionLot.id lot) q
                                  (PositionLot.avg_cost lot) (work s) in
                 first_lot (Account.id acct) symbol (work s) = Some lot
                 /\ qty <= PositionLot.qty lot
                 /\ ((q == 0
                      /\ lots after = lots (delete_lot (PositionLot.id lot) w))
                     \/ (~ q == 0 /\ lots after = lots w)))).
Proof.
  cbv zeta.
  destruct (first_account account_name (work s)) as [acct|] eqn:Ha;
    [|rewrite order_not_found by assumption; left; reflexivity].
  destruct (last_price env symbol) as [px|] eqn:Hp;
    [|rewrite (order_no_price _ _ _ _ _ _ _ acct) by assumption;
      left; reflexivity].
  destruct (String.eqb_spec (Py.upper side) "BUY") as [Hb|Hb].
  - rewrite (order_buy _ _ _ _ _ _ _ acct Ha px Hp Hb). cbv zeta.
    destruct (Py.ltb _ _); [left; reflexivity|].
    destruct (first_lot (Account.id acct) symbol (work s)) as [lot|] eqn:Hl.
    + destruct (Qeq_bool _ _); [left; reflexivity|].
      right. exists acct. split; [reflexivity|]. right. left.
      eexists. eexists. split; [exact Hl|]. split; [assumption|].
      reflexivity.
    + right. exists acct. split; [reflexivity|]. left.
      split; [exact Hl|]. eexists. reflexivity.
  - destruct (String.eqb_spec (Py.upper side) "SELL") as [Hs|Hs];
      [|rewrite (order_invalid_side _ _ _ _ _ _ _ acct Ha px Hp Hb Hs);
        left; reflexivity].
    rewrite (order_sell _ _ _ _ _ _ _ acct Ha px Hp Hs). cbv zeta.
    destruct (first_lot (Account.id acct) symbol (work s)) as [lot|] eqn:Hl;
      [|left; reflexivity].
    destruct (Py.ltb _ _) eqn:Hlt; [left; reflexivity|].
    apply ltb_false in Hlt.
    right. exists acct. split; [reflexivity|]. right. right.
    exists lot. split; [exact Hl|]. split; [assumption|].
    destruct (Qeq_bool (PositionLot.qty lot - qty) 0) eqn:Hq.
    + left. split; [apply Qeq_bool_iff, Hq | reflexivity].
    + right. split; [apply eqb_false, Hq | reflexivity].
Qed.

Lemma order_keeps_positive env account_name symbol side qty note db :
  lots_positive db -> 0 < qty ->
  lots_positive
    (exec env (CallPlaceMarketOrder account_name symbol side qty note) db).
Proof.
  intros Hpos Hq. unfold exec. rewrite run_store.
  pose proof (order_lots env (open db) account_name symbol side qty note)
    as H.
  cbv zeta in H. simpl work in H. simpl store in H.
  set (after := store (snd (place_market_order env account_name symbol side
                              qty note (open db)))) in *.
  destruct H as [H | (acct & Ha & [(Hl & avg & H)
                                  | [(lot & avg & Hl & _ & H)
                                    | (lot & Hl & Hle & H)]])].
  - rewrite H. exact Hpos.
  - intros l Hin. rewrite H in Hin. apply in_app_or in Hin.
    destruct Hin as [Hin | [<- | []]]; [apply Hpos, Hin|].
    simpl. split; lra.
  - intros l Hin. rewrite H in Hin. apply set_lot_in in Hin.
    destruct Hin as [[Hin _] | (l0 & Hin & _ & ->)]; [apply Hpos, Hin|].
    apply first_lot_found in Hl. destruct Hl as (Hlot & _).
    apply Hpos in Hlot. simpl. split; lra.
  - destruct H as [(Hz & H) | (Hnz & H)]; intros l Hin; rewrite H in Hin.
    + apply delete_lot_in in Hin. destruct Hin as [Hin Hne].
      apply set_lot_in in Hin.
      destruct Hin as [[Hin _] | (l0 & _ & Hid & ->)]; [apply Hpos, Hin|].
      simpl in Hne. contradiction.
    + apply set_lot_in in Hin.
      destruct Hin as [[Hin _] | (l0 & _ & _ & ->)]; [apply Hpos, Hin|].
      simpl. split; [lra | exact Hnz].
Qed.

(** C6, as the claim states it: in every store reachable by the public
    operations, with any quantity, every lot holds a quantity [>= 0]
    and none holds zero.  A BUY of 0 shares on the account of the
    scenario creates a lot that holds zero. *)
Lemma lots_positive_counterexample :
  ~ (forall db, reachable db -> lots_positive db).
Proof.
  intros H.
  assert (Hr : reachable
                 (exec env_100 (CallPlaceMarketOrder "core" "XYZ" "BUY" 0 "")
                    (exec env_100 (CallEnsureAccount "core" (Some 5000))
                       empty_db))).
  { apply reach_call; [|exact I]. apply reach_call; [|exact I].
    apply reach_empty. }
  apply H in Hr.
  destruct (Hr (PositionLot.mk 1 1 "XYZ" 0 (100 + 100 * (10 / 10000)))
               ltac:(vm_compute; left; reflexivity)) as [_ Hnz].
  apply Hnz. reflexivity.
Qed.

(** C6, amended.  In every store reachable from the empty one by
    [ensure_account], [place_market_order] with a positive quantity,
    [compute_equity] and [mark_to_market], every lot holds a quantity
    [>= 0] and none holds zero. *)
Theorem lots_positive_reachable :
  forall db, reachable_by positive_qty db -> lots_positive db.
Proof.
  intros db Hr. induction Hr as [|env c db Hr IH Hc].
  - intros l [].
  - destruct c as [name cash | a sy sd q n | a | a].
    + unfold lots_positive. rewrite ensure_account_lots. exact IH.
    + apply order_keeps_positive; assumption.
    + rewrite compute_equity_store. exact IH.
    + unfold lots_positive. rewrite mark_to_market_lots. exact IH.
Qed.

Lemma lots_positive_reachable_witness : lots_positive db_long.
Proof.
  apply lots_positive_reachable.
  change db_long
    with (exec env_100 (CallPlaceMarketOrder "core" "XYZ" "BUY" 10 "")
            (exec env_100 (CallEnsureAccount "core" (Some 5000)) empty_db)).
  apply reach_call; [|reflexivity].
  apply reach_call; [|exact I].
  apply reach_empty.
Defined.

(** ** The screener *)

Lemma iloc_from_end (l : list Q) (k : nat) :
  (0 < k <= List.length l)%nat ->
  exists x, iloc l (- Z.of_nat k) = Ok x
            /\ nth_error l (List.length l - k) = Some x.
Proof.
  intros Hk. unfold iloc.
  assert (Hneg : (- Z.of_nat k <? 0)%Z = true) by (apply Z.ltb_lt; lia).
  rewrite Hneg.
  assert (Hin : ((Z.of_nat (List.length l) + - Z.of_nat k <? 0)
                 || (Z.of_nat (List.length l)
                     <=? Z.of_nat (List.length l) + - Z.of_nat k))%Z = false).
  { apply orb_false_iff. split; [apply Z.ltb_ge | apply Z.leb_gt]; lia. }
  rewrite Hin.
  replace (Z.to_nat (Z.of_nat (List.length l) + - Z.of_nat k))
    with (List.length l - k)%nat by lia.
  destruct (nth_error l (List.length l - k)) as [x|] eqn:Hn.
  - exists x. auto.
  - apply nth_error_None in Hn. lia.
Qed.

Lemma iloc_before_start (l : list Q) (k : nat) :
  (List.length l < k)%nat -> iloc l (- Z.of_nat k) = Raise IndexError.
Proof.
  intros Hk. unfold iloc.
  assert (Hneg : (- Z.of_nat k <? 0)%Z = true) by (apply Z.ltb_lt; lia).
  rewrite Hneg.
  assert (Hout : (Z.of_nat (List.length l) + - Z.of_nat k <? 0)%Z = true)
    by (apply Z.ltb_lt; lia).
  rewrite Hout. reflexivity.
Qed.

Lemma iloc_first (l : list Q) :
  (0 < List.length l)%nat ->
  exists x, iloc l 0 = Ok x /\ nth_error l 0 = Some x.
Proof.
  intros Hk. destruct l as [|x r]; [simpl in Hk; lia|].
  exists x. split; [|reflexivity].
  unfold iloc. simpl. reflexivity.
Qed.

Lemma history_not_empty yf symbol period :
  yf symbol period <> [] ->
  history yf symbol period = Ok (yf symbol period).
Proof.
  intros H. unfold history.
  destruct (yf symbol period); [contradiction H; reflexivity | reflexivity].
Qed.

Lemma history_of_closes yf symbol period :
  dropna (yf symbol period) <> [] ->
  history yf symbol period = Ok (yf symbol period).
Proof.
  intros H. apply history_not_empty. intros He. apply H. rewrite He.
  reflexivity.
Qed.

(** With fewer than 60 closes, of a history that is not empty, the
    score is refused. *)
Lemma momentum_score_insufficient yf symbol :
  yf symbol "6mo" <> [] ->
  (List.length (dropna (yf symbol "6mo")) < 60)%nat ->
  momentum_score yf symbol = Raise InsufficientHistory.
Proof.
  intros Hne Hlen. unfold momentum_score.
  rewrite (history_not_empty _ _ _ Hne). unfold rbind.
  apply Nat.ltb_lt in Hlen. rewrite Hlen. reflexivity.
Qed.

(** With 63 closes or more the score is the sum of the 1-month and
    3-month returns, taken at the 21st and at the 63rd close from the
    end. *)
Lemma momentum_score_composite yf symbol :
  let close := dropna (yf symbol "6mo") in
  let n := List.length close in
  (63 <= n)%nat ->
  exists row last c21 c63,
    momentum_score yf symbol = Ok row
    /\ nth_error close (n - 1) = Some last
    /\ nth_error close (n - 21) = Some c21
    /\ nth_error close (n - 63) = Some c63
    /\ Score.ret_1m row = np_sub (np_div last c21) (Fin 1)
    /\ Score.ret_3m row = np_sub (np_div last c63) (Fin 1)
    /\ Score.score row = np_add (Score.ret_3m row) (Score.ret_1m row).
Proof.
  intros close n Hn.
  destruct (iloc_from_end close 1) as (last & Hl & Hl'); [fold n; lia|].
  destruct (iloc_from_end close 21) as (c21 & H21 & H21'); [fold n; lia|].
  destruct (iloc_from_end close 63) as (c63 & H63 & H63'); [fold n; lia|].
  destruct (iloc_first close) as (c0 & H0 & _); [fold n; lia|].
  fold n in Hl', H21', H63'.
  change (- Z.of_nat 1)%Z with (-1)%Z in Hl.
  change (- Z.of_nat 21)%Z with (-21)%Z in H21.
  change (- Z.of_nat 63)%Z with (-63)%Z in H63.
  unfold momentum_score. rewrite history_of_closes.
  - unfold rbind. fold close.
    assert (Hlen : (List.length close <? 60)%nat = false)
      by (apply Nat.ltb_ge; fold n; lia).
    rewrite Hlen, Hl, H21, H63, H0.
    eexists. exists last, c21, c63. repeat split; assumption.
  - fold close. intros He. unfold n in Hn. rewrite He in Hn.
    simpl in Hn. lia.
Qed.

(** C7, a defect of the code.  The guard of [momentum_score] lets a
    series of 60, 61 or 62 closes through, and the 3-month return then
    looks 63 closes back: the call ends in [IndexError] instead of a
    score. *)
Theorem momentum_score_sixty_sessions :
  forall (yf : Provider) (symbol : string),
    let n := List.length (dropna (yf symbol "6mo")) in
    (60 <= n < 63)%nat ->
    momentum_score yf symbol = Raise IndexError.
Proof.
  intros yf symbol n Hn.
  set (close := dropna (yf symbol "6mo")) in *.
  destruct (iloc_from_end close 1) as (last & Hl & _); [fold n; lia|].
  destruct (iloc_from_end close 21) as (c21 & H21 & _); [fold n; lia|].
  pose proof (iloc_before_start close 63 ltac:(fold n; lia)) as H63.
  change (- Z.of_nat 1)%Z with (-1)%Z in Hl.
  change (- Z.of_nat 21)%Z with (-21)%Z in H21.
  change (- Z.of_nat 63)%Z with (-63)%Z in H63.
  unfold momentum_score. rewrite history_of_closes.
  - unfold rbind. fold close.
    assert (Hlen : (List.length close <? 60)%nat = false)
      by (apply Nat.ltb_ge; fold n; lia).
    rewrite Hlen, Hl, H21, H63. reflexivity.
  - fold close. intros He. unfold n in Hn. rewrite He in Hn.
    simpl in Hn. lia.
Qed.

Lemma momentum_score_sixty_sessions_witness :
  momentum_score (flat_history 60 100) "AAA" = Raise IndexError.
Proof.
  apply (momentum_score_sixty_sessions (flat_history 60 100) "AAA").
  vm_compute. lia.
Defined.

(** ** The drawdown *)

(** C8, a defect of the code.  [max_drawdown] of [app/compare.py]
    takes the minimum of an empty column for the empty series, which is
    NaN and not 0; the copy of the function in [app/ui.py] returns 0
    there. *)
Theorem max_drawdown_empty :
  max_drawdown [] = NaN /\ Ui.max_drawdown [] = Fin 0.
Proof. split; reflexivity. Qed.

(** The series [100, 50] draws down by a half. *)
Lemma max_drawdown_100_50 :
  exists q, max_drawdown [100; 50] = Fin q /\ q == -0.5.
Proof. eexists. split; [vm_compute|]; reflexivity. Qed.

(** [Series.min()] of finite values is one of them and a lower bound. *)
Lemma np_min_fin (q0 : Q) (r : list Q) :
  exists m, np_min (map Fin (q0 :: r)) = Fin m
            /\ In m (q0 :: r)
            /\ forall q, In q (q0 :: r) -> m <= q.
Proof.
  revert q0. induction r as [|q1 r IH]; intros q0.
  - exists q0. split; [reflexivity|]. split; [left; reflexivity|].
    intros q [<- | []]. apply Qle_refl.
  - destruct (IH q1) as (m & Hm & Hin & Hle).
    change (np_min (map Fin (q0 :: q1 :: r)))
      with (np_min2 (Fin q0) (np_min (map Fin (q1 :: r)))).
    rewrite Hm. simpl np_min2.
    destruct (Qle_bool q0 m) eqn:E.
    + apply Qle_bool_iff in E.
      exists q0. split; [reflexivity|]. split; [left; reflexivity|].
      intros q [<- | Hq]; [apply Qle_refl|].
      apply Qle_trans with m; [exact E | apply Hle, Hq].
    + assert (Hlt : m <= q0).
      { apply Qlt_le_weak, Qnot_le_lt. intros H.
        apply Qle_bool_iff in H. congruence. }
      exists m. split; [reflexivity|]. split; [right; exact Hin|].
      intros q [<- | Hq]; [exact Hlt | apply Hle, Hq].
Qed.

Lemma qmax_ge (p x : Q) : p <= qmax p x /\ x <= qmax p x.
Proof.
  unfold qmax. destruct (Qle_bool p x) eqn:E.
  - apply Qle_bool_iff in E. split; [exact E | apply Qle_refl].
  - split; [apply Qle_refl|].
    apply Qlt_le_weak, Qnot_le_lt. intros H.
    apply Qle_bool_iff in H. congruence.
Qed.

Lemma cummax_from_positive (l : list Q) : forall p,
  0 < p -> Forall (fun x => 0 < x) (cummax_from p l).
Proof.
  induction l as [|x r IH]; intros p Hp; simpl; constructor.
  - apply Qlt_le_trans with p; [exact Hp | apply qmax_ge].
  - apply IH. apply Qlt_le_trans with p; [exact Hp | apply qmax_ge].
Qed.

Lemma cummax_positive (l : list Q) :
  Forall (fun x => 0 < x) l -> Forall (fun x => 0 < x) (cummax l).
Proof.
  intros H. destruct l as [|x r]; [constructor|].
  inversion H; subst. simpl. constructor; [assumption|].
  apply cummax_from_positive. assumption.
Qed.

Lemma cummax_from_length (l : list Q) : forall p,
  List.length (cummax_from p l) = List.length l.
Proof.
  induction l as [|x r IH]; intros p; simpl; [reflexivity|].
  rewrite IH. reflexivity.
Qed.

Lemma cummax_length (l : list Q) : List.length (cummax l) = List.length l.
Proof.
  destruct l as [|x r]; simpl; [reflexivity|].
  rewrite cummax_from_length. reflexivity.
Qed.

(** Against a positive peak column every drawdown is finite. *)
Lemma drawdowns_finite (series : list Q) : forall peak,
  Forall (fun p => 0 < p) peak ->
  drawdowns series peak = map Fin (ratios series peak).
Proof.
  induction series as [|x r IH]; intros peak Hp; [reflexivity|].
  destruct peak as [|p r']; [reflexivity|].
  inversion Hp as [|p0 l0 Hp0 Hr']; subst.
  unfold ratios. simpl. fold (ratios r r'). rewrite <- IH by assumption.
  unfold np_div.
  assert (Hz : Qeq_bool p 0 = false).
  { apply eqb_false. intros H. rewrite H in Hp0.
    exact (Qlt_irrefl 0 Hp0). }
  rewrite Hz. reflexivity.
Qed.

Lemma nth_error_combine {A B} (l : list A) : forall (l' : list B) i a b,
  nth_error (combine l l') i = Some (a, b)
  <-> nth_error l i = Some a /\ nth_error l' i = Some b.
Proof.
  induction l as [|y l IH]; intros l' i a b.
  - destruct i; simpl; split; [discriminate | intros [H _]; discriminate H
                              | discriminate | intros [H _]; discriminate H].
  - destruct l' as [|z l'].
    + destruct i; simpl; split;
        [discriminate | intros [_ H]; discriminate H
         | discriminate | intros [_ H]; discriminate H].
    + destruct i as [|i]; simpl.
      * split.
        -- intros H. injection H as <- <-. auto.
        -- intros [H1 H2]. injection H1 as <-. injection H2 as <-.
           reflexivity.
      * apply IH.
Qed.

(** On a series of positive values [max_drawdown] is the least of the
    values [current / running peak - 1]. *)
Lemma max_drawdown_is_min (series : list Q) :
  series <> [] ->
  Forall (fun x => 0 < x) series ->
  exists m,
    max_drawdown series = Fin m
    /\ (exists i x p,
          nth_error series i = Some x
          /\ nth_error (cummax series) i = Some p
          /\ m = x / p - 1)
    /\ (forall i x p,
          nth_error series i = Some x ->
          nth_error (cummax series) i = Some p ->
          m <= x / p - 1).
Proof.
  intros Hne Hpos. unfold max_drawdown.
  rewrite drawdowns_finite by (apply cummax_positive; exact Hpos).
  destruct (ratios series (cummax series)) as [|q0 r] eqn:Hr.
  - exfalso. apply Hne. apply (f_equal (@List.length Q)) in Hr.
    unfold ratios in Hr.
    rewrite length_map, length_combine, cummax_length, Nat.min_id in Hr.
    destruct series; [reflexivity | discriminate Hr].
  - destruct (np_min_fin q0 r) as (m & Hm & Hin & Hle).
    exists m. split; [exact Hm|]. rewrite <- Hr in Hin, Hle. split.
    + unfold ratios in Hin. apply in_map_iff in Hin.
      destruct Hin as ([x p] & Hq & Hin).
      apply In_nth_error in Hin. destruct Hin as (i & Hi).
      apply nth_error_combine in Hi. destruct Hi as [Hx Hp].
      exists i, x, p. simpl in Hq. auto.
    + intros i x p Hx Hp. apply Hle. unfold ratios.
      apply in_map_iff. exists (x, p). split; [reflexivity|].
      apply nth_error_In with i. apply nth_error_combine. auto.
Qed.

(** A series that never falls is its own running peak. *)
Lemma cummax_from_sorted (l : list Q) : forall p,
  Sorted Qle (p :: l) -> cummax_from p l = l.
Proof.
  induction l as [|x r IH]; intros p Hs; [reflexivity|].
  apply Sorted_inv in Hs. destruct Hs as [Hs Hhd].
  apply HdRel_inv in Hhd.
  simpl. unfold qmax. apply Qle_bool_iff in Hhd. rewrite Hhd.
  rewrite (IH x Hs). reflexivity.
Qed.

Lemma cummax_sorted (l : list Q) : Sorted Qle l -> cummax l = l.
Proof.
  intros Hs. destruct l as [|x r]; [reflexivity|].
  simpl. rewrite (cummax_from_sorted r x Hs). reflexivity.
Qed.

(** The drawdown of a series of positive values that never falls, in
    particular of an increasing one, is 0. *)
Lemma max_drawdown_increasing (series : list Q) :
  series <> [] ->
  Forall (fun x => 0 < x) series ->
  Sorted Qle series ->
  exists m, max_drawdown series = Fin m /\ m == 0.
Proof.
  intros Hne Hpos Hs.
  destruct (max_drawdown_is_min series Hne Hpos)
    as (m & Hm & (i & x & p & Hx & Hp & Heq) & _).
  exists m. split; [exact Hm|].
  rewrite (cummax_sorted series Hs) in Hp.
  rewrite Hx in Hp. injection Hp as <-. subst m.
  assert (Hxpos : 0 < x).
  { apply nth_error_In in Hx.
    exact (proj1 (Forall_forall _ _) Hpos x Hx). }
  field. intros H. rewrite H in Hxpos. exact (Qlt_irrefl 0 Hxpos).
Qed.

(** * Further properties of the engine *)

(** ** The shape of the store an order commits *)

Lemma order_raise_store env s account_name symbol side qty note e :
  fst (place_market_order env account_name symbol side qty note s) = Raise e ->
  store (snd (place_market_order env account_name symbol side qty note s))
  = store s.
Proof.
  destruct (first_account account_name (work s)) as [acct|] eqn:Ha;
    [|rewrite order_not_found by assumption; reflexivity].
  destruct (last_price env symbol) as [px|] eqn:Hp;
    [|rewrite (order_no_price _ _ _ _ _ _ _ acct) by assumption;
      reflexivity].
  destruct (String.eqb_spec (Py.upper side) "BUY") as [Hb|Hb].
  - rewrite (order_buy _ _ _ _ _ _ _ acct Ha px Hp Hb). cbv zeta.
    destruct (Py.ltb _ _); [reflexivity|].
    destruct (first_lot _ _ _);
      [destruct (Qeq_bool _ _); [reflexivity|] |]; discriminate.
  - destruct (String.eqb_spec (Py.upper side) "SELL") as [Hs|Hs];
      [|rewrite (order_invalid_side _ _ _ _ _ _ _ acct Ha px Hp Hb Hs);
        reflexivity].
    rewrite (order_sell _ _ _ _ _ _ _ acct Ha px Hp Hs). cbv zeta.
    destruct (first_lot _ _ _); [|reflexivity].
    destruct (Py.ltb _ _); [reflexivity|].
    destruct (Qeq_bool _ _); discriminate.
Qed.

Lemma order_ok_shape env s account_name symbol side qty note tr s' :
  place_market_order env account_name symbol side qty note s = (Ok tr, s') ->
  exists acct px w,
    let fill := _apply_slippage px side (slippage_bps (settings env)) in
    let c := cash_after (Py.upper side) (Account.cash acct) fill qty
                        (commistion_per_trade (settings env)) in
    first_account account_name (work s) = Some acct
    /\ last_price env symbol = Some px
    /\ lot_write acct symbol qty fill (Py.upper side)
                 (set_cash (Account.id acct) c (work s)) w
    /\ booked env acct symbol side qty px note w = (Ok tr, s').
Proof.
  intros H.
  destruct (first_account account_name (work s)) as [acct|] eqn:Ha;
    [|rewrite order_not_found in H by assumption; discriminate].
  destruct (last_price env symbol) as [px|] eqn:Hp;
    [|rewrite (order_no_price _ _ _ _ _ _ _ acct) in H by assumption;
      discriminate].
  exists acct, px. unfold cash_after.
  destruct (String.eqb_spec (Py.upper side) "BUY") as [Hb|Hb].
  - rewrite (order_buy _ _ _ _ _ _ _ acct Ha px Hp Hb) in H. cbv zeta in H.
    destruct (Py.ltb _ _); [discriminate|].
    destruct (first_lot (Account.id acct) symbol (work s)) as [lot|] eqn:Hl.
    + destruct (Qeq_bool _ _) eqn:Hq; [discriminate|].
      apply eqb_false in Hq.
      eexists. split; [reflexivity|]. split; [reflexivity|].
      split; [|exact H].
      apply lot_merged; assumption.
    + eexists. split; [reflexivity|]. split; [reflexivity|].
      split; [|exact H].
      apply lot_opened; assumption.
  - destruct (String.eqb_spec (Py.upper side) "SELL") as [Hs|Hs];
      [|rewrite (order_invalid_side _ _ _ _ _ _ _ acct Ha px Hp Hb Hs) in H;
        discriminate].
    rewrite (order_sell _ _ _ _ _ _ _ acct Ha px Hp Hs) in H. cbv zeta in H.
    destruct (first_lot (Account.id acct) symbol (work s)) as [lot|] eqn:Hl;
      [|discriminate].
    destruct (Py.ltb _ _) eqn:Hlt; [discriminate|].
    apply ltb_false in Hlt.
    destruct (Qeq_bool (PositionLot.qty lot - qty) 0) eqn:Hq.
    + apply Qeq_bool_iff in Hq.
      eexists. split; [reflexivity|]. split; [reflexivity|].
      split; [|exact H].
      apply lot_closed; assumption.
    + apply eqb_false in Hq.
      eexists. split; [reflexivity|]. split; [reflexivity|].
      split; [|exact H].
      apply lot_reduced; assumption.
Qed.

(** ** Keys stay unique *)

Lemma next_id_fresh (ids : list nat) : ~ In (next_id ids) ids.
Proof.
  intros Hin. unfold next_id in Hin.
  assert (H : Forall (fun k => (k <= list_max ids)%nat) ids)
    by (apply list_max_le; lia).
  rewrite Forall_forall in H. apply H in Hin. lia.
Qed.

Lemma NoDup_snoc {A} (l : list A) (a : A) :
  NoDup l -> ~ In a l -> NoDup (l ++ [a]).
Proof.
  induction l as [|b l IH]; intros Hnd Hin; simpl.
  - constructor; [intros [] | constructor].
  - inversion Hnd as [|b' l' Hb Hl]; subst. constructor.
    + rewrite in_app_iff. intros [H | [H | []]]; [contradiction|].
      apply Hin. left. symmetry. exact H.
    + apply IH; [exact Hl|]. intros H. apply Hin. right. exact H.
Qed.

Lemma unique_keys_filter {Row Key} (key : Row -> Key) (keep : Row -> bool) :
  forall rows : list Row,
    NoDup (map key rows) -> NoDup (map key (filter keep rows)).
Proof.
  intros rows. induction rows as [|row rest IH]; intros Hnd; simpl;
    [constructor|].
  inversion Hnd as [|k ks Hfresh Hrest]; subst.
  destruct (keep row); simpl; [|apply IH, Hrest].
  constructor; [|apply IH, Hrest].
  intros Hin. apply Hfresh. apply in_map_iff in Hin.
  destruct Hin as (x & Hx & Hin). apply filter_In in Hin.
  apply in_map_iff. exists x. tauto.
Qed.

Lemma map_map_same {A B} (f : A -> B) (g : A -> A) (l : list A) :
  (forall a, f (g a) = f a) -> map f (map g l) = map f l.
Proof.
  intros H. rewrite map_map. apply map_ext. exact H.
Qed.

Lemma set_cash_ids id c db :
  map Account.id (accounts (set_cash id c db)) = map Account.id (accounts db).
Proof.
  unfold set_cash. simpl. apply map_map_same.
  intros a. destruct (Nat.eqb (Account.id a) id); reflexivity.
Qed.

Lemma set_cash_names id c db :
  map Account.name (accounts (set_cash id c db))
  = map Account.name (accounts db).
Proof.
  unfold set_cash. simpl. apply map_map_same.
  intros a. destruct (Nat.eqb (Account.id a) id); reflexivity.
Qed.

Lemma set_lot_ids id q avg db :
  map PositionLot.id (lots (set_lot id q avg db))
  = map PositionLot.id (lots db).
Proof.
  unfold set_lot. simpl. apply map_map_same.
  intros l. destruct (Nat.eqb (PositionLot.id l) id); reflexivity.
Qed.

Lemma set_lot_keys id q avg db :
  map lot_key (lots (set_lot id q avg db)) = map lot_key (lots db).
Proof.
  unfold set_lot. simpl. apply map_map_same.
  intros l. destruct (Nat.eqb (PositionLot.id l) id); reflexivity.
Qed.

Lemma first_lot_none_key aid symbol db :
  first_lot aid symbol db = None ->
  ~ In (aid, symbol) (map lot_key (lots db)).
Proof.
  intros Hf Hin. apply in_map_iff in Hin. destruct Hin as (l & Hk & Hin).
  unfold first_lot in Hf.
  pose proof (find_none _ _ Hf l Hin) as Hm.
  unfold lot_key in Hk. injection Hk as Ha Hs.
  unfold lot_matches in Hm. rewrite Ha, Hs in Hm.
  rewrite Nat.eqb_refl, String.eqb_refl in Hm. discriminate Hm.
Qed.

Lemma first_account_none_name name db :
  first_account name db = None ->
  ~ In name (map Account.name (accounts db)).
Proof.
  intros Hf Hin. apply in_map_iff in Hin. destruct Hin as (a & Hn & Hin).
  unfold first_account in Hf.
  pose proof (find_none _ _ Hf a Hin) as Hm. simpl in Hm.
  rewrite Hn, String.eqb_refl in Hm. discriminate Hm.
Qed.

Lemma delete_lot_lots id db :
  lots (delete_lot id db)
  = filter (fun l => negb (Nat.eqb (PositionLot.id l) id)) (lots db).
Proof. reflexivity. Qed.

Lemma lot_write_rest acct symbol qty fill side w0 w :
  lot_write acct symbol qty fill side w0 w ->
  accounts w = accounts w0 /\ trades w = trades w0 /\ marks w = marks w0.
Proof. intros H. destruct H; repeat split. Qed.

Lemma lot_write_unique acct symbol qty fill side w0 w :
  lot_write acct symbol qty fill side w0 w ->
  NoDup (map PositionLot.id (lots w0)) ->
  NoDup (map lot_key (lots w0)) ->
  NoDup (map PositionLot.id (lots w)) /\ NoDup (map lot_key (lots w)).
Proof.
  intros H Hid Hkey. destruct H as [_ Hl | lot _ _ _ | lot _ _ _ _ | lot _ _ _].
  - unfold add_lot. simpl. rewrite !map_app. simpl. split.
    + apply NoDup_snoc; [exact Hid | apply next_id_fresh].
    + apply NoDup_snoc; [exact Hkey|].
      apply first_lot_none_key, Hl.
  - rewrite set_lot_ids, set_lot_keys. auto.
  - rewrite set_lot_ids, set_lot_keys. auto.
  - rewrite delete_lot_lots. split; apply unique_keys_filter.
    + rewrite set_lot_ids. exact Hid.
    + rewrite set_lot_keys. exact Hkey.
Qed.

(** What [mark_to_market] commits: nothing, or one more mark. *)
Lemma mark_to_market_run env account_name db :
  (exists e, run (mark_to_market env account_name) db = (Raise e, db))
  \/ exists acct equity,
       first_account account_name db = Some acct
       /\ compute_equity env account_name (open db) = (Ok equity, open db)
       /\ run (mark_to_market env account_name) db
          = (Ok (new_mark acct (today env) equity db),
             add_mark (new_mark acct (today env) equity db) db).
Proof.
  unfold run, mark_to_market, bind, query. simpl.
  destruct (first_account account_name db) as [acct|];
    [|left; eexists; reflexivity].
  pose proof (compute_equity_pure env account_name (open db)) as Hp.
  destruct (compute_equity env account_name (open db)) as [[v|e] s'];
    simpl in Hp; subst s'.
  - right. exists acct, v. repeat split.
  - left. eexists. reflexivity.
Qed.

Lemma exec_well_formed env c db :
  well_formed db -> well_formed (exec env c db).
Proof.
  intros [Hai Han Hli Hlk Hti Hmi].
  destruct c as [name cash | a sy sd q n | a | a].
  - unfold exec. rewrite run_store.
    unfold ensure_account, bind, query. simpl.
    destruct (first_account name db) eqn:Hf; simpl;
      [constructor; assumption|].
    constructor; simpl; try assumption; rewrite map_app; simpl.
    + apply NoDup_snoc; [exact Hai | apply next_id_fresh].
    + apply NoDup_snoc; [exact Han | apply first_account_none_name, Hf].
  - unfold exec. rewrite run_store.
    destruct (place_market_order env a sy sd q n (open db))
      as [[tr|e] s'] eqn:Ho.
    + apply order_ok_shape in Ho.
      destruct Ho as (acct & px & w & _ & _ & Hw & Hbk).
      cbv zeta in Hw.
      unfold booked in Hbk. injection Hbk as <- <-.
      destruct (lot_write_rest _ _ _ _ _ _ _ Hw) as (Hacc & Htr & Hmk).
      destruct (lot_write_unique _ _ _ _ _ _ _ Hw Hli Hlk) as [Hli' Hlk'].
      constructor; simpl; try assumption.
      * rewrite Hacc, set_cash_ids. exact Hai.
      * rewrite Hacc, set_cash_names. exact Han.
      * rewrite map_app. simpl. rewrite Htr. simpl.
        apply NoDup_snoc; [exact Hti | apply next_id_fresh].
      * rewrite Hmk. exact Hmi.
    + pose proof (order_raise_store env (open db) a sy sd q n e) as Hs.
      rewrite Ho in Hs. simpl in *. rewrite (Hs eq_refl).
      constructor; assumption.
  - rewrite compute_equity_store. constructor; assumption.
  - unfold exec.
    destruct (mark_to_market_run env a db)
      as [(e & ->) | (acct & v & _ & _ & ->)]; simpl;
      [constructor; assumption|].
    constructor; simpl; try assumption.
    rewrite map_app. simpl.
    apply NoDup_snoc; [exact Hmi | apply next_id_fresh].
Qed.

(** X1. Every store reachable by the public operations, with any
    arguments, keeps the keys of the schema: primary keys and account
    names are unique, and an account holds at most one lot per symbol. *)
Theorem reachable_well_formed :
  forall db, reachable db -> well_formed db.
Proof.
  intros db Hr. induction Hr as [|env c db Hr IH _].
  - constructor; constructor.
  - apply exec_well_formed, IH.
Qed.

Lemma reachable_well_formed_witness : well_formed db_long.
Proof.
  apply reachable_well_formed.
  change db_long
    with (exec env_100 (CallPlaceMarketOrder "core" "XYZ" "BUY" 10 "")
            (exec env_100 (CallEnsureAccount "core" (Some 5000)) empty_db)).
  apply reach_call; [|exact I].
  apply reach_call; [|exact I].
  apply reach_empty.
Defined.

(** X2. No call rewrites or removes a trade, a mark or an account: the
    trades and the marks of the store after a call are those before it
    followed by at most one new row, and the (id, name) pairs of the
    accounts are those before it followed by at most one new pair. *)
Theorem history_append_only :
  forall (env : Env) (c : call) (db : Db),
    let db' := exec env c db in
    let ident := fun a => (Account.id a, Account.name a) in
    (exists added, trades db' = (trades db ++ added)%list
                   /\ (List.length added <= 1)%nat)
    /\ (exists added, marks db' = (marks db ++ added)%list
                      /\ (List.length added <= 1)%nat)
    /\ (exists added,
          map ident (accounts db') = (map ident (accounts db) ++ added)%list
          /\ (List.length added <= 1)%nat).
Proof.
  intros env c db db' ident.
  assert (Hsame : forall d : Db,
             trades d = trades db -> marks d = marks db ->
             map ident (accounts d) = map ident (accounts db) ->
             (exists added, trades d = (trades db ++ added)%list
                            /\ (List.length added <= 1)%nat)
             /\ (exists added, marks d = (marks db ++ added)%list
                               /\ (List.length added <= 1)%nat)
             /\ (exists added,
                   map ident (accounts d)
                   = (map ident (accounts db) ++ added)%list
                   /\ (List.length added <= 1)%nat)).
  { intros d Ht Hm Ha. repeat split; exists []; rewrite app_nil_r; auto. }
  unfold db'. destruct c as [name cash | a sy sd q n | a | a].
  - unfold exec. rewrite run_store.
    unfold ensure_account, bind, query. simpl.
    destruct (first_account name db); simpl; [apply Hsame; reflexivity|].
    split; [exists []; rewrite app_nil_r; auto|].
    split; [exists []; rewrite app_nil_r; auto|].
    eexists. rewrite map_app. split; [reflexivity | simpl; lia].
  - unfold exec. rewrite run_store.
    destruct (place_market_order env a sy sd q n (open db))
      as [[tr|e] s'] eqn:Ho.
    + apply order_ok_shape in Ho.
      destruct Ho as (acct & px & w & _ & _ & Hw & Hbk).
      cbv zeta in Hw. unfold booked in Hbk. injection Hbk as <- <-.
      destruct (lot_write_rest _ _ _ _ _ _ _ Hw) as (Hacc & Htr & Hmk).
      simpl. rewrite Htr, Hmk, Hacc. simpl.
      split; [eexists; split; [reflexivity | simpl; lia]|].
      split; [exists []; rewrite app_nil_r; auto|].
      exists []. rewrite app_nil_r. split; [|simpl; lia].
      rewrite map_map. apply map_ext. intros x.
      destruct (Nat.eqb (Account.id x) (Account.id acct)); reflexivity.
    + pose proof (order_raise_store env (open db) a sy sd q n e) as Hs.
      rewrite Ho in Hs. simpl in *. rewrite (Hs eq_refl).
      apply Hsame; reflexivity.
  - rewrite compute_equity_store. apply Hsame; reflexivity.
  - unfold exec.
    destruct (mark_to_market_run env a db)
      as [(e & ->) | (acct & v & _ & _ & ->)]; simpl;
      [apply Hsame; reflexivity|].
    split; [exists []; rewrite app_nil_r; auto|].
    split; [eexists; split; [reflexivity | simpl; lia]|].
    exists []. rewrite app_nil_r. auto.
Qed.

(** ** Equity *)



















(** ** Daily marks *)

Lemma positions_value_any_session env ls : forall acc s s',
  fst (positions_value env ls acc s) = fst (positions_value env ls acc s').
Proof.
  induction ls as [|l rest IH]; intros acc s s'; simpl; [reflexivity|].
  unfold bind, lift.
  destruct (last_price env (PositionLot.symbol l)); simpl;
    [apply IH | reflexivity].
Qed.

(** The equity depends on the accounts and the lots only. *)
Lemma compute_equity_same env account_name s s' :
  accounts (work s') = accounts (work s) ->
  lots (work s') = lots (work s) ->
  fst (compute_equity env account_name s')
  = fst (compute_equity env account_name s).
Proof.
  intros Ha Hl. unfold compute_equity, bind, query.
  rewrite (first_account_same _ _ _ Ha).
  destruct (first_account account_name (work s)) as [acct|]; [|reflexivity].
  simpl. unfold lots_of. rewrite Hl.
  pose proof (positions_value_any_session env
                (filter (fun l => Nat.eqb (PositionLot.account_id l)
                                          (Account.id acct)) (lots (work s)))
                0 s' s) as H.
  destruct (positions_value env _ 0 s') as [[v'|e'] t'];
    destruct (positions_value env _ 0 s) as [[v|e] t];
    simpl in H; try discriminate H; injection H as <-; reflexivity.
Qed.

(** X5. [mark_to_market] fails exactly when [compute_equity] fails,
    with the same failure, and then commits nothing; otherwise it
    appends one mark that holds the computed equity, the cash of the
    account and the date of the day, and touches nothing else. *)
Theorem mark_to_market_appends :
  forall (env : Env) (account_name : string) (db : Db),
    let out := run (mark_to_market env account_name) db in
    match fst (compute_equity env account_name (open db)) with
    | Raise err => out = (Raise err, db)
    | Ok e =>
        exists acct mark,
          first_account account_name db = Some acct
          /\ out = (Ok mark, add_mark mark db)
          /\ DailyMark.account_id mark = Account.id acct
          /\ DailyMark.marked_on mark = today env
          /\ DailyMark.equity mark = e
          /\ DailyMark.cash mark = Account.cash acct
    end.
Proof.
  intros env account_name db out. unfold out.
  unfold run, mark_to_market, bind, query. simpl.
  destruct (first_account account_name db) as [acct|] eqn:Ha.
  - pose proof (compute_equity_pure env account_name (open db)) as Hp.
    destruct (compute_equity env account_name (open db)) as [[v|e] s'];
      simpl in Hp; subst s'; simpl.
    + exists acct. eexists. repeat split.
    + reflexivity.
  - unfold compute_equity, bind, query. simpl. rewrite Ha. reflexivity.
Qed.

(** X6. [mark_to_market] appends and never replaces: two successful
    calls on the same day leave two marks, with different keys, the
    same date and the same equity. *)
Theorem mark_to_market_twice :
  forall (env : Env) (account_name : string) (db : Db) (e : Q),
    fst (compute_equity env account_name (open db)) = Ok e ->
    let db1 := snd (run (mark_to_market env account_name) db) in
    let db2 := snd (run (mark_to_market env account_name) db1) in
    exists m1 m2,
      marks db2 = (marks db ++ [m1; m2])%list
      /\ DailyMark.id m1 <> DailyMark.id m2
      /\ DailyMark.marked_on m1 = today env
      /\ DailyMark.marked_on m2 = today env
      /\ DailyMark.equity m1 = e
      /\ DailyMark.equity m2 = e.
Proof.
  intros env account_name db e He db1 db2.
  destruct (mark_to_market_run env account_name db)
    as [(err & Hr) | (acct & v & Ha & Hv & Hr)].
  - exfalso. unfold run, mark_to_market, bind, query in Hr. simpl in Hr.
    pose proof (compute_equity_pure env account_name (open db)) as Hp.
    destruct (first_account account_name db) as [acct|] eqn:Ha.
    + destruct (compute_equity env account_name (open db)) as [[v|e'] s'];
        simpl in *; [discriminate Hr | discriminate He].
    + unfold compute_equity, bind, query in He. simpl in He.
      rewrite Ha in He. discriminate He.
  - rewrite Hv in He. simpl in He. injection He as ->.
    assert (Hdb1 : db1 = add_mark (new_mark acct (today env) e db) db)
      by (unfold db1; rewrite Hr; reflexivity).
    set (m1 := new_mark acct (today env) e db) in *.
    assert (Ha1 : first_account account_name db1 = Some acct)
      by (rewrite Hdb1; exact Ha).
    assert (He1 : fst (compute_equity env account_name (open db1)) = Ok e).
    { rewrite (compute_equity_same env account_name (open db) (open db1)).
      - rewrite Hv. reflexivity.
      - rewrite Hdb1. reflexivity.
      - rewrite Hdb1. reflexivity. }
    destruct (mark_to_market_run env account_name db1)
      as [(err & Hr1) | (acct1 & v1 & Ha1' & Hv1 & Hr1)].
    + exfalso. unfold run, mark_to_market, bind, query in Hr1. simpl in Hr1.
      rewrite Ha1 in Hr1.
      destruct (compute_equity env account_name (open db1)) as [[v'|e'] s'];
        simpl in *; [discriminate Hr1 | discriminate He1].
    + rewrite Hv1 in He1. simpl in He1. injection He1 as ->.
      rewrite Ha1 in Ha1'. injection Ha1' as <-.
      exists m1, (new_mark acct (today env) e db1).
      unfold db2. rewrite Hr1. simpl. rewrite Hdb1. simpl.
      rewrite <- app_assoc. simpl.
      repeat split.
      unfold m1, new_mark. simpl. rewrite map_app. simpl.
      unfold next_id. rewrite list_max_app. simpl. lia.
Qed.

Lemma mark_to_market_twice_witness :
  exists m1 m2,
    marks (snd (run (mark_to_market env_100 "core")
                  (snd (run (mark_to_market env_100 "core") db_long))))
    = [m1; m2]
    /\ DailyMark.id m1 <> DailyMark.id m2.
Proof.
  destruct (mark_to_market_twice env_100 "core" db_long
              (5000 - ((100 + 100 * (10 / 10000)) * 10 + 0.50)
               + (0 + 10 * 100))
              eq_refl)
    as (m1 & m2 & Hm & Hid & _).
  exists m1, m2. split; [exact Hm | exact Hid].
Defined.

(** ** The positions report *)




(** ** An order touches one account and one lot *)

Lemma first_account_in name db acct :
  first_account name db = Some acct ->
  In acct (accounts db) /\ Account.name acct = name.
Proof.
  intros Hf. apply find_some in Hf. destruct Hf as [Hin Hm].
  apply String.eqb_eq in Hm. auto.
Qed.

Lemma NoDup_map_inj {A B} (f : A -> B) (l : list A) (a b : A) :
  NoDup (map f l) -> In a l -> In b l -> f a = f b -> a = b.
Proof.
  induction l as [|x l IH]; intros Hnd Ha Hb Hf; [destruct Ha|].
  simpl in Hnd. inversion Hnd as [|y l' Hx Hl]; subst.
  destruct Ha as [-> | Ha]; destruct Hb as [-> | Hb].
  - reflexivity.
  - exfalso. apply Hx. rewrite Hf. apply in_map, Hb.
  - exfalso. apply Hx. rewrite <- Hf. apply in_map, Ha.
  - apply IH; assumption.
Qed.

Lemma lot_write_other acct symbol qty fill side w0 w l :
  lot_write acct symbol qty fill side w0 w ->
  NoDup (map PositionLot.id (lots w0)) ->
  lot_key l <> (Account.id acct, symbol) ->
  (In l (lots w0) <-> In l (lots w)).
Proof.
  intros Hw Hnd Hkey.
  assert (Hlot : forall lot,
             first_lot (Account.id acct) symbol w0 = Some lot ->
             PositionLot.id l <> PositionLot.id lot
             \/ ~ In l (lots w0)).
  { intros lot Hl.
    destruct (Nat.eq_dec (PositionLot.id l) (PositionLot.id lot)) as [He|Hne];
      [|left; exact Hne].
    right. intros Hin. apply first_lot_found in Hl.
    destruct Hl as (Hin' & Hacc & Hsym).
    assert (l = lot) by (eapply NoDup_map_inj; eauto). subst l.
    apply Hkey. unfold lot_key. rewrite Hacc, Hsym. reflexivity. }
  assert (Hbwd : forall lot q avg,
             first_lot (Account.id acct) symbol w0 = Some lot ->
             In l (lots (set_lot (PositionLot.id lot) q avg w0)) ->
             In l (lots w0)).
  { intros lot q avg Hl Hin. apply set_lot_in in Hin.
    destruct Hin as [[Hin _] | (l0 & Hin0 & Hid0 & ->)]; [exact Hin|].
    exfalso. apply first_lot_found in Hl.
    destruct Hl as (Hin' & Hacc & Hsym).
    assert (l0 = lot) by (eapply NoDup_map_inj; eauto). subst l0.
    apply Hkey. unfold lot_key. simpl. rewrite Hacc, Hsym. reflexivity. }
  assert (Hfwd : forall lot q avg,
             first_lot (Account.id acct) symbol w0 = Some lot ->
             In l (lots w0) ->
             In l (lots (set_lot (PositionLot.id lot) q avg w0))
             /\ PositionLot.id l <> PositionLot.id lot).
  { intros lot q avg Hl Hin.
    destruct (Hlot lot Hl) as [Hne | Hn]; [|contradiction].
    split; [apply set_lot_other; assumption | exact Hne]. }
  destruct Hw as [_ Hl | lot _ Hl _ | lot _ Hl _ _ | lot _ Hl _].
  - unfold add_lot. simpl. rewrite in_app_iff. split; [auto|].
    intros [H | [<- | []]]; [exact H|].
    exfalso. apply Hkey. reflexivity.
  - split; [intros H; apply Hfwd; assumption | apply Hbwd, Hl].
  - split; [intros H; apply Hfwd; assumption | apply Hbwd, Hl].
  - rewrite delete_lot_in. split.
    + intros H. apply Hfwd; assumption.
    + intros [H _]. eapply Hbwd; eauto.
Qed.

(** X8. On a store with unique keys an order, whatever its outcome,
    leaves every account under another name as it is, and every lot of
    another (account, symbol) as it is. *)
Theorem order_isolated :
  forall (env : Env) (db : Db) (account_name symbol side : string) (qty : Q)
         (note : string) (acct : Account.t),
    well_formed db ->
    first_account account_name db = Some acct ->
    let db' := exec env (CallPlaceMarketOrder account_name symbol side qty
                                              note) db in
    (forall a, Account.name a <> account_name ->
               (In a (accounts db) <-> In a (accounts db')))
    /\ (forall l, lot_key l <> (Account.id acct, symbol) ->
                  (In l (lots db) <-> In l (lots db'))).
Proof.
  intros env db account_name symbol side qty note acct Hwf Ha db'.
  unfold db', exec. rewrite run_store.
  destruct (place_market_order env account_name symbol side qty note
              (open db)) as [[tr|e] s'] eqn:Ho.
  - apply order_ok_shape in Ho.
    destruct Ho as (acct0 & px & w & Ha0 & _ & Hw & Hbk). cbv zeta in Hw.
    simpl work in Ha0, Hw. rewrite Ha in Ha0. injection Ha0 as <-.
    unfold booked in Hbk. injection Hbk as <- <-. simpl.
    destruct (lot_write_rest _ _ _ _ _ _ _ Hw) as (Hacc & _ & _).
    split.
    + intros a Hname. rewrite Hacc. unfold set_cash. simpl.
      rewrite in_map_iff.
      assert (Hid : forall x, In x (accounts db) ->
                      Account.name x <> account_name ->
                      Nat.eqb (Account.id x) (Account.id acct) = false).
      { intros x Hin Hn. apply Nat.eqb_neq. intros He. apply Hn.
        destruct (first_account_in _ _ _ Ha) as [Hina Hna].
        assert (x = acct)
          by (eapply NoDup_map_inj;
              [apply (account_ids_unique db Hwf) | exact Hin | exact Hina
               | exact He]).
        subst x. exact Hna. }
      split.
      * intros Hin. exists a. split; [|exact Hin].
        rewrite (Hid a Hin Hname). reflexivity.
      * intros (x & Hx & Hin).
        destruct (Nat.eqb (Account.id x) (Account.id acct)) eqn:E.
        -- exfalso. subst a. simpl in Hname.
           destruct (String.eqb_spec (Account.name x) account_name) as [Hn|Hn];
             [contradiction|].
           rewrite (Hid x Hin Hn) in E. discriminate E.
        -- subst a. exact Hin.
    + intros l Hkey.
      apply (lot_write_other _ _ _ _ _ _ _ l Hw);
        [exact (lot_ids_unique db Hwf) | exact Hkey].
  - pose proof (order_raise_store env (open db) account_name symbol side qty
                  note e) as Hs.
    rewrite Ho in Hs. simpl in *. rewrite (Hs eq_refl).
    split; intros; reflexivity.
Qed.

Lemma db_long_well_formed : well_formed db_long.
Proof.
  change db_long
    with (exec env_100 (CallPlaceMarketOrder "core" "XYZ" "BUY" 10 "")
            (exec env_100 (CallEnsureAccount "core" (Some 5000)) empty_db)).
  apply exec_well_formed, exec_well_formed.
  constructor; constructor.
Qed.

Lemma order_isolated_witness :
  In (Account.mk 2 "risk" 1) (accounts db_long)
  <-> In (Account.mk 2 "risk" 1)
         (accounts (exec env_100
                      (CallPlaceMarketOrder "core" "XYZ" "SELL" 4 "")
                      db_long)).
Proof.
  apply (proj1 (order_isolated env_100 db_long "core" "XYZ" "SELL" 4 ""
                  (Account.mk 1 "core"
                     (5000 - ((100 + 100 * (10 / 10000)) * 10 + 0.50)))
                  db_long_well_formed eq_refl)).
  discriminate.
Defined.

(** * The comparison *)

Lemma total_return_empty : total_return [] = Raise IndexError.
Proof. reflexivity. Qed.

Lemma total_return_value (series : list Q) (first last : Q) :
  nth_error series 0 = Some first ->
  nth_error series (List.length series - 1) = Some last ->
  total_return series = Ok (np_sub (np_div last first) (Fin 1)).
Proof.
  intros Hf Hl.
  assert (Hlen : (0 < List.length series)%nat)
    by (destruct series; [discriminate Hf | simpl; lia]).
  destruct (iloc_from_end series 1) as (x & Hx & Hx'); [lia|].
  change (- Z.of_nat 1)%Z with (-1)%Z in Hx.
  destruct (iloc_first series Hlen) as (y & Hy & Hy').
  rewrite Hl in Hx'. injection Hx' as <-.
  rewrite Hf in Hy'. injection Hy' as <-.
  unfold total_return, rbind. rewrite Hx, Hy. reflexivity.
Qed.

Lemma total_return_nonempty (series : list Q) :
  series <> [] ->
  exists first last,
    nth_error series 0 = Some first
    /\ nth_error series (List.length series - 1) = Some last.
Proof.
  intros Hne.
  assert (Hlen : (0 < List.length series)%nat)
    by (destruct series; [contradiction Hne; reflexivity | simpl; lia]).
  destruct (iloc_from_end series 1) as (x & _ & Hx'); [lia|].
  destruct (iloc_first series Hlen) as (y & _ & Hy').
  exists y, x. auto.
Qed.

(** X9. [summary] fails exactly when the portfolio or the benchmark
    series is empty, and then with IndexError. *)
Theorem summary_fails_on_empty :
  forall (portfolio benchmark : list Q),
    match summary portfolio benchmark with
    | Raise e => e = IndexError /\ (portfolio = [] \/ benchmark = [])
    | Ok _ => portfolio <> [] /\ benchmark <> []
    end.
Proof.
  intros p b. unfold summary.
  destruct p as [|x p].
  - simpl. auto.
  - destruct (total_return_nonempty (x :: p) ltac:(discriminate))
      as (pf & pl & Hpf & Hpl).
    rewrite (total_return_value _ _ _ Hpf Hpl). simpl rbind.
    destruct b as [|y b].
    + simpl. auto.
    + destruct (total_return_nonempty (y :: b) ltac:(discriminate))
        as (bf & bl & Hbf & Hbl).
      rewrite (total_return_value _ _ _ Hbf Hbl). simpl.
      split; discriminate.
Qed.





Lemma drawdowns_length (series : list Q) : forall peak,
  List.length peak = List.length series ->
  List.length (drawdowns series peak) = List.length series.
Proof.
  induction series as [|x r IH]; intros peak Hlen; [reflexivity|].
  destruct peak as [|p r']; [discriminate Hlen|].
  simpl. rewrite IH; [reflexivity|]. simpl in Hlen. lia.
Qed.

(** X12. The dashboard's copy of [max_drawdown] and the one of
    [app/compare.py] agree on every series that is not empty; they
    differ on the empty one only. *)
Theorem max_drawdown_copies_agree :
  forall (series : list Q),
    series <> [] -> Ui.max_drawdown series = max_drawdown series.
Proof.
  intros series Hne. unfold Ui.max_drawdown, max_drawdown.
  rewrite drawdowns_length by apply cummax_length.
  destruct series as [|x r]; [contradiction Hne; reflexivity|].
  reflexivity.
Qed.

Lemma max_drawdown_copies_agree_witness :
  Ui.max_drawdown [100; 50] = max_drawdown [100; 50].
Proof.
  apply (max_drawdown_copies_agree [100; 50]). discriminate.
Defined.

(** * The screen *)

Lemma np_geb_total (x y : npfloat) :
  np_geb x y = false -> np_geb y x = true.
Proof.
  destruct x as [a| | |], y as [b| | |]; simpl; try discriminate;
    try reflexivity.
  intros H. apply Qle_bool_iff. apply Qlt_le_weak, Qnot_le_lt.
  intros Hle. apply Qle_bool_iff in Hle. congruence.
Qed.

Lemma np_geb_trans (x y z : npfloat) :
  np_geb x y = true -> np_geb y z = true -> np_geb x z = true.
Proof.
  destruct x as [a| | |], y as [b| | |], z as [c| | |]; simpl;
    try discriminate; try reflexivity.
  rewrite !Qle_bool_iff. intros H1 H2. apply Qle_trans with b; assumption.
Qed.

Lemma insert_by_score_perm r l : Permutation (r :: l) (insert_by_score r l).
Proof.
  induction l as [|x t IH]; simpl; [apply Permutation_refl|].
  destruct (np_geb (Score.score r) (Score.score x));
    [apply Permutation_refl|].
  apply perm_trans with (x :: r :: t); [apply perm_swap|].
  apply perm_skip, IH.
Qed.

Lemma insert_by_score_sorted r l :
  Sorted score_before l -> Sorted score_before (insert_by_score r l).
Proof.
  induction l as [|x t IH]; intros Hs; simpl.
  - constructor; constructor.
  - destruct (np_geb (Score.score r) (Score.score x)) eqn:E.
    + constructor; [exact Hs|]. constructor. exact E.
    + apply Sorted_inv in Hs. destruct Hs as [Hs Hhd].
      constructor; [apply IH, Hs|].
      apply np_geb_total in E.
      destruct t as [|y t']; simpl.
      * constructor. exact E.
      * destruct (np_geb (Score.score r) (Score.score y));
          constructor; [exact E|].
        apply HdRel_inv in Hhd. exact Hhd.
Qed.

Lemma sort_by_score_sorts : sorts_by_score sort_by_score.
Proof.
  intros rows. induction rows as [|r l [IHp IHs]]; simpl.
  - split; constructor.
  - split.
    + apply perm_trans with (r :: sort_by_score l);
        [apply perm_skip, IHp | apply insert_by_score_perm].
    + apply insert_by_score_sorted, IHs.
Qed.

Lemma scored_in yf symbols r :
  In r (scored yf symbols)
  <-> exists s, In s symbols /\ momentum_score yf s = Ok r.
Proof.
  unfold scored. rewrite in_flat_map. split.
  - intros (s & Hin & Hr). exists s. split; [exact Hin|].
    destruct (momentum_score yf s) as [row|e]; [|destruct Hr].
    destruct Hr as [-> | []]. reflexivity.
  - intros (s & Hin & Hr). exists s. split; [exact Hin|].
    rewrite Hr. left. reflexivity.
Qed.

Lemma head_incl {A} (n : Z) (l : list A) (a : A) : In a (head n l) -> In a l.
Proof.
  assert (Hfirst : forall k, In a (firstn k l) -> In a l).
  { intros k H. rewrite <- (firstn_skipn k l). apply in_or_app. left.
    exact H. }
  unfold head. destruct (0 <=? n)%Z; apply Hfirst.
Qed.

Lemma firstn_sorted {A} (R : A -> A -> Prop) (l : list A) : forall n,
  Sorted R l -> Sorted R (firstn n l).
Proof.
  induction l as [|x t IH]; intros n Hs; [rewrite firstn_nil; constructor|].
  destruct n as [|n]; [constructor|]. simpl.
  apply Sorted_inv in Hs. destruct Hs as [Hs Hhd].
  constructor; [apply IH, Hs|].
  destruct t as [|y t']; [rewrite firstn_nil; constructor|].
  destruct n as [|n]; [constructor|]. simpl. constructor.
  apply HdRel_inv in Hhd. exact Hhd.
Qed.

Section Screen.

Variable sort_values : list Score.t -> list Score.t.
Hypothesis sort_values_sorts : sorts_by_score sort_values.
Variable yf : Provider.

Lemma screen_unfold symbols top_n :
  screen sort_values yf symbols top_n
  = head top_n (sort_values (scored yf symbols)).
Proof.
  unfold screen. destruct (scored yf symbols) as [|r l] eqn:E;
    [|reflexivity].
  destruct (sort_values_sorts []) as [Hp _].
  apply Permutation_nil in Hp. rewrite Hp.
  unfold head. destruct (0 <=? top_n)%Z; rewrite firstn_nil; reflexivity.
Qed.

(** X13. [screen] absorbs every failure: each row it returns is the
    score of one of the symbols, computed without an exception, so a
    symbol whose score raises is dropped and the batch goes on; with no
    symbol, or none that can be scored, the result is empty. *)
Theorem screen_rows_scored :
  forall (symbols : list string) (top_n : Z),
    (forall r, In r (screen sort_values yf symbols top_n) ->
               exists s, In s symbols /\ momentum_score yf s = Ok r)
    /\ ((forall s, In s symbols -> exists e, momentum_score yf s = Raise e) ->
        screen sort_values yf symbols top_n = []).
Proof.
  intros symbols top_n. split.
  - intros r Hin. rewrite screen_unfold in Hin. apply head_incl in Hin.
    destruct (sort_values_sorts (scored yf symbols)) as [Hp _].
    apply Permutation_sym in Hp.
    apply (Permutation_in _ Hp) in Hin. apply scored_in, Hin.
  - intros Hall. unfold screen.
    destruct (scored yf symbols) as [|r l] eqn:E; [reflexivity|].
    assert (Hin : In r (scored yf symbols)) by (rewrite E; left; reflexivity).
    apply scored_in in Hin. destruct Hin as (s & Hs & Hr).
    destruct (Hall s Hs) as (e & He). congruence.
Qed.

(** X14. The rows of [screen] are in descending order of the score,
    rows without a score (NaN) last. *)
Theorem screen_sorted :
  forall (symbols : list string) (top_n : Z),
    Sorted score_before (screen sort_values yf symbols top_n).
Proof.
  intros symbols top_n. rewrite screen_unfold.
  destruct (sort_values_sorts (scored yf symbols)) as [_ Hs].
  unfold head. destruct (0 <=? top_n)%Z; apply firstn_sorted, Hs.
Qed.

(** X15. [screen] returns [top_n] rows when that many symbols can be
    scored and all the scored rows otherwise; a negative [top_n] drops
    that many rows from the end instead. *)
Theorem screen_length :
  forall (symbols : list string) (top_n : Z),
    let k := List.length (scored yf symbols) in
    List.length (screen sort_values yf symbols top_n)
    = if (0 <=? top_n)%Z then Nat.min (Z.to_nat top_n) k
      else (k - Z.to_nat (- top_n))%nat.
Proof.
  intros symbols top_n k. rewrite screen_unfold.
  destruct (sort_values_sorts (scored yf symbols)) as [Hp _].
  apply Permutation_length in Hp. fold k in Hp.
  unfold head. destruct (0 <=? top_n)%Z; rewrite length_firstn, <- Hp; lia.
Qed.

(** X16. The first row of a [screen] that is not empty is a best one:
    no symbol that can be scored has a score that sorts before it. *)
Theorem screen_first_is_best :
  forall (symbols : list string) (top_n : Z) (best : Score.t)
         (rest : list Score.t),
    screen sort_values yf symbols top_n = best :: rest ->
    forall s r, In s symbols -> momentum_score yf s = Ok r ->
                np_geb (Score.score best) (Score.score r) = true.
Proof.
  intros symbols top_n best rest Hscreen s r Hs Hr.
  rewrite screen_unfold in Hscreen.
  destruct (sort_values_sorts (scored yf symbols)) as [Hp Hsorted].
  assert (Hin : In r (sort_values (scored yf symbols))).
  { apply (Permutation_in _ Hp). apply scored_in. exists s. auto. }
  assert (Hhead : exists tl, sort_values (scored yf symbols) = best :: tl).
  { unfold head in Hscreen.
    destruct (sort_values (scored yf symbols)) as [|x tl].
    - destruct (0 <=? top_n)%Z; rewrite firstn_nil in Hscreen;
        discriminate Hscreen.
    - exists tl. f_equal.
      destruct (0 <=? top_n)%Z;
        match type of Hscreen with
        | firstn ?n _ = _ => destruct n; simpl in Hscreen;
                             [discriminate Hscreen|]
        end; injection Hscreen as -> _; reflexivity. }
  destruct Hhead as (tl & Htl). rewrite Htl in Hin, Hsorted.
  destruct Hin as [<- | Hin].
  - destruct (np_geb (Score.score best) (Score.score best)) eqn:E;
      [reflexivity|]. pose proof (np_geb_total _ _ E) as E'. congruence.
  - apply Sorted_StronglySorted in Hsorted.
    + apply StronglySorted_inv in Hsorted. destruct Hsorted as [_ Hall].
      rewrite Forall_forall in Hall. apply (Hall r Hin).
    + intros a b c. unfold score_before. apply np_geb_trans.
Qed.

(** X17. The scenario of two symbols: when the first cannot be scored
    and the second can, [screen] of the two with [top_n = 1] is the row
    of the second alone. *)
Theorem screen_drops_failed :
  forall (a b : string) (e : error) (r : Score.t),
    momentum_score yf a = Raise e ->
    momentum_score yf b = Ok r ->
    screen sort_values yf [a; b] 1 = [r].
Proof.
  intros a b e r Ha Hb. rewrite screen_unfold.
  unfold scored. simpl. rewrite Ha, Hb. simpl.
  destruct (sort_values_sorts [r]) as [Hp _].
  apply Permutation_length_1_inv in Hp. rewrite Hp. reflexivity.
Qed.

End Screen.

Lemma screen_rows_scored_witness :
  screen sort_by_score (one_long_history "BBB") ["AAA"] 5 = [].
Proof.
  apply (proj2 (screen_rows_scored sort_by_score sort_by_score_sorts
                  (one_long_history "BBB") ["AAA"] 5)).
  intros s [<- | []]. eexists. vm_compute. reflexivity.
Defined.

Lemma screen_sorted_witness :
  Sorted score_before
    (screen sort_by_score (one_long_history "BBB") ["AAA"; "BBB"] 1).
Proof.
  apply (screen_sorted sort_by_score sort_by_score_sorts).
Defined.

Lemma screen_length_witness :
  List.length (screen sort_by_score (one_long_history "BBB")
                 ["AAA"; "BBB"; "BBB"] 5) = 2%nat.
Proof.
  rewrite (screen_length sort_by_score sort_by_score_sorts).
  vm_compute. reflexivity.
Defined.

Lemma screen_first_is_best_witness :
  exists best rest,
    screen sort_by_score (one_long_history "BBB") ["AAA"; "BBB"] 1
    = best :: rest
    /\ forall s r,
         In s ["AAA"; "BBB"] ->
         momentum_score (one_long_history "BBB") s = Ok r ->
         np_geb (Score.score best) (Score.score r) = true.
Proof.
  eexists. eexists. split; [vm_compute; reflexivity|].
  intros s r Hs Hr.
  eapply (screen_first_is_best sort_by_score sort_by_score_sorts
            (one_long_history "BBB") ["AAA"; "BBB"] 1);
    [vm_compute; reflexivity | exact Hs | exact Hr].
Defined.

Lemma screen_drops_failed_witness :
  exists r,
    momentum_score (one_long_history "BBB") "BBB" = Ok r
    /\ screen sort_by_score (one_long_history "BBB") ["AAA"; "BBB"] 1 = [r].
Proof.
  eexists. split; [vm_compute; reflexivity|].
  eapply (screen_drops_failed sort_by_score sort_by_score_sorts
            (one_long_history "BBB") "AAA" "BBB");
    vm_compute; reflexivity.
Defined.

(** * The benchmark tracker *)

Lemma rows_of_none symbol (t : Benchmark.table) :
  Benchmark.rows_of symbol t = []
  <-> forall m, In m t -> BenchmarkMark.symbol m <> symbol.
Proof.
  unfold Benchmark.rows_of. split.
  - intros H m Hin Hs.
    assert (Hm : In m (filter (fun m0 => String.eqb (BenchmarkMark.symbol m0)
                                                    symbol) t))
      by (apply filter_In; split; [exact Hin | apply String.eqb_eq, Hs]).
    rewrite H in Hm. destruct Hm.
  - intros H. induction t as [|m r IH]; [reflexivity|]. simpl.
    destruct (String.eqb_spec (BenchmarkMark.symbol m) symbol) as [Hs|Hs].
    + exfalso. apply (H m); [left; reflexivity | exact Hs].
    + apply IH. intros m' Hin. apply H. right. exact Hin.
Qed.

Lemma find_symbol_none symbol (t : Benchmark.table) :
  find (fun m => String.eqb (BenchmarkMark.symbol m) symbol) t = None
  <-> forall m, In m t -> BenchmarkMark.symbol m <> symbol.
Proof.
  split.
  - intros H m Hin Hs. pose proof (find_none _ _ H m Hin) as Hm.
    simpl in Hm. apply String.eqb_neq in Hm. contradiction.
  - intros H. destruct (find _ t) as [m|] eqn:Hf; [|reflexivity].
    apply find_some in Hf. destruct Hf as [Hin Hs].
    apply String.eqb_eq in Hs. exfalso. exact (H m Hin Hs).
Qed.

(** X18. Seeding a benchmark is a no-op when the symbol has a mark,
    whatever the value and the day; otherwise it appends one mark of
    the given value dated today; so a second seeding of the same symbol
    changes nothing. *)
Theorem init_benchmark_once :
  forall (d1 d2 : nat) (symbol : string) (v1 v2 : Q) (t : Benchmark.table),
    ((exists m, In m t /\ BenchmarkMark.symbol m = symbol) ->
     Benchmark.init_benchmark d1 symbol v1 t = t)
    /\ ((forall m, In m t -> BenchmarkMark.symbol m <> symbol) ->
        Benchmark.init_benchmark d1 symbol v1 t
        = (t ++ [BenchmarkMark.mk (next_id (map BenchmarkMark.id t)) symbol d1
                                  (Fin v1)])%list)
    /\ Benchmark.init_benchmark d2 symbol v2
         (Benchmark.init_benchmark d1 symbol v1 t)
       = Benchmark.init_benchmark d1 symbol v1 t.
Proof.
  intros d1 d2 symbol v1 v2 t.
  assert (Hhit : forall d v t',
             (exists m, In m t' /\ BenchmarkMark.symbol m = symbol) ->
             Benchmark.init_benchmark d symbol v t' = t').
  { intros d v t' (m & Hin & Hs). unfold Benchmark.init_benchmark.
    destruct (find _ t') eqn:Hf; [reflexivity|].
    exfalso. exact (proj1 (find_symbol_none symbol t') Hf m Hin Hs). }
  assert (Hmiss : (forall m, In m t -> BenchmarkMark.symbol m <> symbol) ->
                  Benchmark.init_benchmark d1 symbol v1 t
                  = (t ++ [BenchmarkMark.mk (next_id (map BenchmarkMark.id t))
                                            symbol d1 (Fin v1)])%list).
  { intros H. unfold Benchmark.init_benchmark.
    rewrite (proj2 (find_symbol_none symbol t) H). reflexivity. }
  split; [apply Hhit|]. split; [exact Hmiss|].
  destruct (find (fun m => String.eqb (BenchmarkMark.symbol m) symbol) t)
    as [m|] eqn:Hf.
  - apply find_some in Hf. destruct Hf as [Hin Hs].
    apply String.eqb_eq in Hs.
    rewrite (Hhit d1 v1 t) by (exists m; auto).
    apply Hhit. exists m. auto.
  - rewrite Hmiss by (apply find_symbol_none, Hf).
    apply Hhit. eexists. split; [apply in_or_app; right; left; reflexivity|].
    reflexivity.
Qed.

Lemma init_benchmark_once_witness :
  Benchmark.init_benchmark 7 "SPY" 1 (Benchmark.init_benchmark 3 "SPY" 5000 [])
  = [BenchmarkMark.mk 1 "SPY" 3 (Fin 5000)].
Proof.
  apply (proj1 (init_benchmark_once 7 7 "SPY" 1 1
                  [BenchmarkMark.mk 1 "SPY" 3 (Fin 5000)])).
  eexists. split; [left; reflexivity | reflexivity].
Defined.

Lemma latest_row_picks : Benchmark.picks_latest Benchmark.latest_row.
Proof.
  intros rows. induction rows as [|m r IH]; simpl; [reflexivity|].
  destruct (Benchmark.latest_row r) as [m'|].
  - destruct IH as [Hin Hmax].
    destruct (Nat.leb_spec (BenchmarkMark.marked_on m')
                           (BenchmarkMark.marked_on m)) as [Hle|Hlt].
    + split; [left; reflexivity|].
      intros x [<- | Hx]; [lia|]. specialize (Hmax x Hx). lia.
    + split; [right; exact Hin|].
      intros x [<- | Hx]; [lia | apply Hmax, Hx].
  - subst r. split; [left; reflexivity|].
    intros x [<- | []]. lia.
Qed.

Section Tracker.

Variable latest : Benchmark.table -> option BenchmarkMark.t.
Hypothesis latest_picks : Benchmark.picks_latest latest.

Lemma latest_of_rows symbol (t : Benchmark.table) :
  match latest (Benchmark.rows_of symbol t) with
  | None => forall m, In m t -> BenchmarkMark.symbol m <> symbol
  | Some last =>
      In last t /\ BenchmarkMark.symbol last = symbol
      /\ forall m, In m t -> BenchmarkMark.symbol m = symbol ->
           (BenchmarkMark.marked_on m <= BenchmarkMark.marked_on last)%nat
  end.
Proof.
  pose proof (latest_picks (Benchmark.rows_of symbol t)) as H.
  destruct (latest (Benchmark.rows_of symbol t)) as [last|].
  - destruct H as [Hin Hmax]. unfold Benchmark.rows_of in *.
    apply filter_In in Hin. destruct Hin as [Hin Hs].
    apply String.eqb_eq in Hs. split; [exact Hin|]. split; [exact Hs|].
    intros m Hm Hsm. apply Hmax. apply filter_In.
    split; [exact Hm | apply String.eqb_eq, Hsm].
  - apply rows_of_none, H.
Qed.

(** X19. [mark_benchmark] adds no row unless the history has two
    sessions: without a mark of the symbol it fails with
    NotInitialized, with an empty history it fails as [history] does,
    and with one session it returns a mark of the symbol of the latest
    date; in the three cases the table is as before. *)
Theorem mark_benchmark_no_row :
  forall (yf : Provider) (today : nat) (symbol : string)
         (t : Benchmark.table),
    let out := Benchmark.mark_benchmark latest yf today symbol t in
    ((forall m, In m t -> BenchmarkMark.symbol m <> symbol) ->
     out = (Benchmark.Failed Benchmark.NotInitialized, t))
    /\ ((exists m, In m t /\ BenchmarkMark.symbol m = symbol) ->
        (yf symbol "10d" = [] ->
         out = (Benchmark.Failed (Benchmark.HistoryError NoPriceData), t))
        /\ (List.length (yf symbol "10d") = 1%nat ->
            exists last,
              out = (Benchmark.Done last, t)
              /\ In last t /\ BenchmarkMark.symbol last = symbol
              /\ forall m, In m t -> BenchmarkMark.symbol m = symbol ->
                   (BenchmarkMark.marked_on m
                    <= BenchmarkMark.marked_on last)%nat)).
Proof.
  intros yf today symbol t out. unfold out, Benchmark.mark_benchmark.
  pose proof (latest_of_rows symbol t) as Hl.
  destruct (latest (Benchmark.rows_of symbol t)) as [last|].
  - split.
    + intros Hnone. exfalso. destruct Hl as (Hin & Hs & _).
      exact (Hnone last Hin Hs).
    + intros _. split.
      * intros Hdf. unfold history. rewrite Hdf. reflexivity.
      * intros Hlen. unfold history.
        destruct (yf symbol "10d") as [|c df]; [discriminate Hlen|].
        destruct df; [|discriminate Hlen]. simpl.
        exists last. split; [reflexivity | exact Hl].
  - split; [reflexivity|].
    intros (m & Hin & Hs). exfalso. exact (Hl m Hin Hs).
Qed.



End Tracker.

Lemma mark_benchmark_no_row_witness :
  Benchmark.mark_benchmark Benchmark.latest_row Benchmark.two_closes 4 "SPY" []
  = (Benchmark.Failed Benchmark.NotInitialized, []).
Proof.
  apply (proj1 (mark_benchmark_no_row Benchmark.latest_row latest_row_picks
                  Benchmark.two_closes 4 "SPY" [])).
  intros m [].
Defined.



(** * The commands *)

Lemma ensure_account_hit env name cash s acct :
  first_account name (work s) = Some acct ->
  ensure_account env name cash s = (Ok acct, s).
Proof.
  intros H. unfold ensure_account, bind, query. rewrite H. reflexivity.
Qed.

(** X22. The [init] command on an empty store creates the account of
    each cash argument that is not zero, with that cash, and both
    accounts with the default cash only when both arguments are zero:
    with one argument given, the other account is not created.  Once
    both accounts exist the command changes nothing. *)
Theorem cli_init_accounts :
  forall (env : Env) (core_cash risk_cash : Q),
    let created := fun db => map (fun a => (Account.name a, Account.cash a))
                                 (accounts db) in
    let db := snd (run (Cli.init env core_cash risk_cash) empty_db) in
    let dflt := default_cash (settings env) in
    (~ core_cash == 0 -> ~ risk_cash == 0 ->
     created db = [("core", core_cash); ("risk", risk_cash)])
    /\ (~ core_cash == 0 -> risk_cash == 0 ->
        created db = [("core", core_cash)])
    /\ (core_cash == 0 -> ~ risk_cash == 0 ->
        created db = [("risk", risk_cash)])
    /\ (core_cash == 0 -> risk_cash == 0 ->
        created db = [("core", dflt); ("risk", dflt)])
    /\ (forall db0 a b,
          first_account "core" db0 = Some a ->
          first_account "risk" db0 = Some b ->
          snd (run (Cli.init env core_cash risk_cash) db0) = db0).
Proof.
  intros env c r created db dflt. unfold db, created.
  repeat split.
  - intros Hc Hr. apply eqb_false in Hc, Hr.
    rewrite run_store. unfold Cli.init, Cli.truthy, bind.
    rewrite Hc, Hr. reflexivity.
  - intros Hc Hr. apply eqb_false in Hc. apply Qeq_bool_iff in Hr.
    rewrite run_store. unfold Cli.init, Cli.truthy, bind.
    rewrite Hc, Hr. reflexivity.
  - intros Hc Hr. apply eqb_false in Hr. apply Qeq_bool_iff in Hc.
    rewrite run_store. unfold Cli.init, Cli.truthy, bind.
    rewrite Hc, Hr. reflexivity.
  - intros Hc Hr. apply Qeq_bool_iff in Hc, Hr.
    rewrite run_store. unfold Cli.init, Cli.truthy, bind.
    rewrite Hc, Hr. reflexivity.
  - intros db0 a b Ha Hb. rewrite run_store.
    pose proof (ensure_account_hit env "core" (Some c) (open db0) a Ha) as H1.
    pose proof (ensure_account_hit env "risk" (Some r) (open db0) b Hb) as H2.
    pose proof (ensure_account_hit env "core" None (open db0) a Ha) as H3.
    pose proof (ensure_account_hit env "risk" None (open db0) b Hb) as H4.
    unfold Cli.init, Cli.truthy, bind, ret.
    destruct (Qeq_bool c 0); destruct (Qeq_bool r 0);
      cbn -[ensure_account];
      rewrite ?H1, ?H2, ?H3; cbn -[ensure_account];
      rewrite ?H2, ?H4; reflexivity.
Qed.

Lemma cli_init_accounts_witness :
  map (fun a => (Account.name a, Account.cash a))
      (accounts (snd (run (Cli.init env_100 1000 0) empty_db)))
  = [("core", 1000)].
Proof.
  apply (proj1 (proj2 (cli_init_accounts env_100 1000 0)));
    [vm_compute; discriminate | reflexivity].
Defined.





(** * Buying and selling back *)


